(** * Translation relay: a shallow embedding of [server/index.js]

    The server is a small Express application.  Its [POST /translate] handler
    validates the JSON body, optionally polishes the text through the Gemini
    generative-language API, resolves language codes through a static table
    and calls the MyMemory translation API.

    The embedding follows the JavaScript source expression by expression:
    - JavaScript strings are sequences of UTF-16 code units ([jsstring]);
    - values parsed from JSON are the inductive type [JsVal];
    - [async] code that awaits [fetch] is a program tree [Prog] whose nodes
      are the outgoing HTTP calls; an [Oracle] plays the two providers and
      [run] produces the list of calls made together with the outcome;
    - a JavaScript exception is the [Err] case of [Exc], carrying the
      exception's [message]; [try]/[catch] is [catch].

    [console.log] and [console.error] are nodes of the program tree too:
    they have no effect on the responses or on the provider calls, but
    their arguments are evaluated, and a template literal among them can
    throw. *)

From Stdlib Require Import List NArith ZArith Bool Ascii String Lia.
From Stdlib Require Import DecimalString DecimalN.
Import ListNotations.

Local Open Scope N_scope.

(** ** JavaScript strings *)

(** A string is its list of UTF-16 code units. *)
Definition jsstring := list N.

(** The code units of an ASCII literal. *)
Definition lit (s : string) : jsstring :=
  map N_of_ascii (list_ascii_of_string s).

Definition dquote : jsstring := [34].
Definition newline : jsstring := [10].

Fixpoint jsstring_eqb (a b : jsstring) : bool :=
  match a, b with
  | [], [] => true
  | x :: a', y :: b' => (x =? y) && jsstring_eqb a' b'
  | _, _ => false
  end.

Fixpoint starts_with (pat s : jsstring) : bool :=
  match pat, s with
  | [], _ => true
  | p :: pat', c :: s' => (p =? c) && starts_with pat' s'
  | _ :: _, [] => false
  end.

(** [contains pat s]: [pat] occurs in [s]; this is what matching a regular
    expression made of literal characters, without anchors, decides. *)
Fixpoint contains (pat s : jsstring) : bool :=
  starts_with pat s ||
  match s with
  | [] => false
  | _ :: s' => contains pat s'
  end.

Fixpoint join (sep : jsstring) (l : list jsstring) : jsstring :=
  match l with
  | [] => []
  | [x] => x
  | x :: l' => x ++ sep ++ join sep l'
  end.

(** White space and line terminators of ECMAScript, the code units that
    [String.prototype.trim] strips. *)
Definition is_ws (c : N) : bool :=
  ((9 <=? c) && (c <=? 13)) || (c =? 32) || (c =? 160) || (c =? 5760)
  || ((8192 <=? c) && (c <=? 8202)) || (c =? 8232) || (c =? 8233)
  || (c =? 8239) || (c =? 8287) || (c =? 12288) || (c =? 65279).

Fixpoint trim_start (s : jsstring) : jsstring :=
  match s with
  | [] => []
  | c :: s' => if is_ws c then trim_start s' else s
  end.

Definition trim (s : jsstring) : jsstring :=
  rev (trim_start (rev (trim_start s))).

(** *** [encodeURIComponent] *)

Definition is_alnum (c : N) : bool :=
  ((48 <=? c) && (c <=? 57)) || ((65 <=? c) && (c <=? 90))
  || ((97 <=? c) && (c <=? 122)).

(** The unreserved set: letters, digits and [- _ . ! ~ * ' ( )]. *)
Definition uri_unreserved (c : N) : bool :=
  is_alnum c || existsb (N.eqb c) [45; 95; 46; 33; 126; 42; 39; 40; 41].

Definition hex_digit (n : N) : N :=
  if n <? 10 then 48 + n else 55 + n.

Definition percent (byte : N) : jsstring :=
  [37; hex_digit (byte / 16); hex_digit (byte mod 16)].

Definition utf8 (cp : N) : list N :=
  if cp <? 128 then [cp]
  else if cp <? 2048 then [192 + cp / 64; 128 + cp mod 64]
  else if cp <? 65536 then
    [224 + cp / 4096; 128 + (cp / 64) mod 64; 128 + cp mod 64]
  else
    [240 + cp / 262144; 128 + (cp / 4096) mod 64;
     128 + (cp / 64) mod 64; 128 + cp mod 64].

Definition is_high_surrogate (c : N) : bool := (55296 <=? c) && (c <=? 56319).
Definition is_low_surrogate (c : N) : bool := (56320 <=? c) && (c <=? 57343).

Definition escape (cp : N) : jsstring := flat_map percent (utf8 cp).

(** [None] is the [URIError] thrown on a lone surrogate. *)
Fixpoint encodeURIComponent (s : jsstring) : option jsstring :=
  match s with
  | [] => Some []
  | c :: s' =>
      if uri_unreserved c then option_map (cons c) (encodeURIComponent s')
      else if is_low_surrogate c then None
      else if is_high_surrogate c then
        match s' with
        | d :: s'' =>
            if is_low_surrogate d then
              option_map
                (app (escape (65536 + (c - 55296) * 1024 + (d - 56320))))
                (encodeURIComponent s'')
            else None
        | [] => None
        end
      else option_map (app (escape c)) (encodeURIComponent s')
  end.

(** Decimal digits of a natural number. *)
Definition digits (n : N) : jsstring :=
  lit (NilEmpty.string_of_uint (N.to_uint n)).


(** ** Exceptions *)

(** An exception is represented by its [message], the only part of it the
    server uses. *)
Definition Exn := jsstring.

Inductive Exc (A : Type) : Type :=
| Val (a : A)
| Err (e : Exn).
Arguments Val {A} a.
Arguments Err {A} e.

Definition exc_bind {A B} (m : Exc A) (f : A -> Exc B) : Exc B :=
  match m with
  | Val a => f a
  | Err e => Err e
  end.

(** ** JavaScript values *)

(** A number, as far as the server observes one: whether it is zero (its
    truthiness; JSON has no NaN) and the string that ToString gives. *)
Record JsNumber : Type := mkNumber {
  is_zero : bool;
  printed : jsstring
}.

Definition number_to_string (z : Z) : jsstring :=
  if (z <? 0)%Z then lit "-" ++ digits (Z.to_N (- z)) else digits (Z.to_N z).

(** The number of a safe integer, which prints as its decimal digits. *)
Definition integer (z : Z) : JsNumber :=
  {| is_zero := Z.eqb z 0; printed := number_to_string z |}.

#[local] Set Warnings "-register-all".

(** The values the handler meets: what [JSON.parse] produces, [undefined],
    and the two kinds of object a plain object inherits from
    [Object.prototype] (its built-in functions and, through [__proto__],
    the prototype itself).  An object is the list of its own properties,
    looked up from the left; they are data, never functions. *)

Inductive JsVal : Type :=
| JUndefined
| JNull
| JBool (b : bool)
| JNum (x : JsNumber)
| JStr (s : jsstring)
| JArr (items : list JsVal)
| JObj (fields : list (jsstring * JsVal))
| JNativeFn (name : jsstring)
| JObjectPrototype.

(** What a JSON text can denote. *)
Fixpoint is_json (v : JsVal) : bool :=
  match v with
  | JNull | JBool _ | JNum _ | JStr _ => true
  | JArr items => forallb is_json items
  | JObj fields => forallb (fun kv => is_json (snd kv)) fields
  | JUndefined | JNativeFn _ | JObjectPrototype => false
  end.

(** ToBoolean. *)
Definition truthy (v : JsVal) : bool :=
  match v with
  | JUndefined | JNull => false
  | JBool b => b
  | JNum x => negb (is_zero x)
  | JStr s => match s with [] => false | _ :: _ => true end
  | JArr _ | JObj _ | JNativeFn _ | JObjectPrototype => true
  end.

Definition falsy (v : JsVal) : bool := negb (truthy v).

(** [a || b]. *)
Definition js_or (a b : JsVal) : JsVal := if truthy a then a else b.

Definition nullish (v : JsVal) : bool :=
  match v with
  | JUndefined | JNull => true
  | _ => false
  end.

(** [v !== false]. *)
Definition is_not_false (v : JsVal) : bool :=
  match v with
  | JBool false => false
  | _ => true
  end.

(** ** Property access *)

Fixpoint own (fields : list (jsstring * JsVal)) (k : jsstring) : option JsVal :=
  match fields with
  | [] => None
  | (k', v) :: rest => if jsstring_eqb k' k then Some v else own rest k
  end.

(** The properties of [Object.prototype] (ECMAScript, with Annex B). *)
Definition object_prototype_functions : list jsstring :=
  map lit
    ["hasOwnProperty"; "isPrototypeOf"; "propertyIsEnumerable";
     "toLocaleString"; "toString"; "valueOf";
     "__defineGetter__"; "__defineSetter__";
     "__lookupGetter__"; "__lookupSetter__"]%string.

Definition object_prototype_get (k : jsstring) : JsVal :=
  if jsstring_eqb k (lit "constructor") then JNativeFn (lit "Object")
  else if jsstring_eqb k (lit "__proto__") then JObjectPrototype
  else if existsb (jsstring_eqb k) object_prototype_functions then JNativeFn k
  else JUndefined.

(** [o[k]] on a plain object: the own property, else the inherited one. *)
Definition object_get (fields : list (jsstring * JsVal)) (k : jsstring) : JsVal :=
  match own fields k with
  | Some v => v
  | None => object_prototype_get k
  end.

(** ** ToString *)

(** The [TypeError] of ToPrimitive. *)
Definition cannot_convert : Exn :=
  lit "Cannot convert object to primitive value".

(** ToString, as applied by template literals, by property keys and by
    [encodeURIComponent].

    An object is converted by its [toString] method, then by [valueOf].
    Without an own [toString] that is [Object.prototype.toString], which
    gives ["[object Object]"].  An own [toString] is data, not a function:
    it is skipped, [valueOf] (own, or the inherited one, which returns the
    object itself) gives no primitive either, and the conversion throws.
    An array is converted by [join]: its elements are converted in order,
    [null] and [undefined] as the empty string.  Native functions print
    the way V8 prints them. *)
Fixpoint ToString (v : JsVal) : Exc jsstring :=
  match v with
  | JUndefined => Val (lit "undefined")
  | JNull => Val (lit "null")
  | JBool true => Val (lit "true")
  | JBool false => Val (lit "false")
  | JNum x => Val (printed x)
  | JStr s => Val s
  | JArr items =>
      exc_bind
        ((fix elements (l : list JsVal) : Exc (list jsstring) :=
            match l with
            | [] => Val []
            | e :: l' =>
                exc_bind (if nullish e then Val [] else ToString e) (fun s =>
                exc_bind (elements l') (fun rest => Val (s :: rest)))
            end) items)
        (fun parts => Val (join (lit ",") parts))
  | JObj fields =>
      match own fields (lit "toString") with
      | None => Val (lit "[object Object]")
      | Some _ => Err cannot_convert
      end
  | JNativeFn name =>
      Val (lit "function " ++ name ++ lit "() { [native code] }")
  | JObjectPrototype => Val (lit "[object Object]")
  end.

(** ** Reading properties *)

Definition type_error_reading (k : jsstring) (v : JsVal) : Exn :=
  lit "Cannot read properties of "
  ++ match v with
     | JNull => lit "null"
     | _ => lit "undefined"
     end
  ++ lit " (reading '" ++ k ++ lit "')".

(** [v.k] for a data key [k], a name that no built-in prototype of arrays,
    strings, numbers or booleans defines and that is not an index; every
    name the server reads from parsed JSON is of this kind
    ([text], [candidates], [responseData], ...).  Reading from [undefined]
    or [null] throws a [TypeError]. *)
Definition get (v : JsVal) (k : jsstring) : Exc JsVal :=
  match v with
  | JUndefined | JNull => Err (type_error_reading k v)
  | JObj fields => Val (object_get fields k)
  | JObjectPrototype => Val (object_prototype_get k)
  | _ => Val JUndefined
  end.

(** [v?.k]. *)
Definition opt_get (v : JsVal) (k : jsstring) : JsVal :=
  match v with
  | JObj fields => object_get fields k
  | JObjectPrototype => object_prototype_get k
  | _ => JUndefined
  end.

(** [v?.[0]]. *)
Definition opt_get0 (v : JsVal) : JsVal :=
  match v with
  | JArr items => hd JUndefined items
  | JStr (c :: _) => JStr [c]
  | JObj fields => object_get fields (lit "0")
  | _ => JUndefined
  end.

Definition not_a_function (what : jsstring) : Exn :=
  what ++ lit " is not a function".

(** [v.trim()] for a [v] that is not [undefined] or [null]: only strings
    have the method. *)
Definition call_trim (what : jsstring) (v : JsVal) : Exc JsVal :=
  match v with
  | JStr s => Val (JStr (trim s))
  | JUndefined | JNull => Err (type_error_reading (lit "trim") v)
  | _ => Err (not_a_function what)
  end.

(** [v?.match(/pat/)], reduced to its truthiness: [String.prototype.match]
    returns an array when the pattern occurs and [null] when it does not. *)
Definition opt_match (what : jsstring) (v : JsVal) (pat : jsstring) : Exc bool :=
  match v with
  | JUndefined | JNull => Val false
  | JStr s => Val (contains pat s)
  | _ => Err (not_a_function what)
  end.

(** ** HTTP calls to the providers *)

(** What a call is made for.  The label is not part of the request; it
    names the place in the source that issues the call. *)
Inductive Purpose : Type := Refine | Detect | Translate.

Inductive Method : Type := GET | POST.

(** The arguments of [fetch].  [call_body] is the value handed to
    [JSON.stringify]. *)
Record Call : Type := mkCall {
  call_purpose : Purpose;
  call_method : Method;
  call_url : jsstring;
  call_headers : list (jsstring * jsstring);
  call_body : option JsVal
}.

(** A [fetch] response: [response.ok], [response.status] and the results
    of [response.text()] and [response.json()], either of which can
    throw. *)
Record FetchResponse : Type := mkFetchResponse {
  resp_ok : bool;
  resp_status : N;
  resp_text : Exc jsstring;
  resp_json : Exc JsVal
}.

(** [fetch] resolves to a response or rejects: network failure, or the
    abort that the ten-second timer of [refineWithGemini] triggers. *)
Inductive FetchOutcome : Type :=
| Rejected (e : Exn)
| Resolved (r : FetchResponse).

(** ** Console output *)

(** An argument of [console.log]: a string, a value, a number or an
    [Error] object, handed over as it is. *)
Inductive LogArg : Type :=
| LStr (s : jsstring)
| LVal (v : JsVal)
| LNum (n : N)
| LErr (e : Exn).

Inductive Level : Type := Stdout | Stderr.

(** One call of [console.log] ([Stdout]) or [console.error] ([Stderr]). *)
Record LogLine : Type := mkLogLine {
  log_level : Level;
  log_args : list LogArg
}.

(** ** Programs *)

Inductive Prog (A : Type) : Type :=
| Ret (a : A)
| Throw (e : Exn)
| Fetch (c : Call) (k : FetchOutcome -> Prog A)
| Log (l : LogLine) (k : Prog A).
Arguments Ret {A} a.
Arguments Throw {A} e.
Arguments Fetch {A} c k.
Arguments Log {A} l k.

Fixpoint bind {A B} (m : Prog A) (f : A -> Prog B) : Prog B :=
  match m with
  | Ret a => f a
  | Throw e => Throw e
  | Fetch c k => Fetch c (fun o => bind (k o) f)
  | Log l k => Log l (bind k f)
  end.

(** [try { m } catch (err) { h err }]. *)
Fixpoint catch {A} (m : Prog A) (h : Exn -> Prog A) : Prog A :=
  match m with
  | Ret a => Ret a
  | Throw e => h e
  | Fetch c k => Fetch c (fun o => catch (k o) h)
  | Log l k => Log l (catch k h)
  end.

Definition lift {A} (x : Exc A) : Prog A :=
  match x with
  | Val a => Ret a
  | Err e => Throw e
  end.

(** [await fetch(...)]. *)
Definition fetch (c : Call) : Prog FetchResponse :=
  Fetch c (fun o =>
    match o with
    | Rejected e => Throw e
    | Resolved r => Ret r
    end).

(** [console.log(...)] and [console.error(...)]. *)
Definition console_log (args : list LogArg) : Prog unit :=
  Log {| log_level := Stdout; log_args := args |} (Ret tt).

Definition console_error (args : list LogArg) : Prog unit :=
  Log {| log_level := Stderr; log_args := args |} (Ret tt).

Declare Scope prog_scope.
Delimit Scope prog_scope with prog.
Notation "x <- m ;; k" := (bind m (fun x => k))
  (at level 100, m at next level, right associativity) : prog_scope.
Notation "' pat <- m ;; k" := (bind m (fun x => match x with pat => k end))
  (at level 100, pat pattern, m at next level, right associativity) : prog_scope.
Notation "m ;;; k" := (bind m (fun _ => k))
  (at level 100, right associativity) : prog_scope.
Local Open Scope prog_scope.

(** *** Running a program against the providers *)

(** The providers: the outcome of the [n]-th call made during a request. *)
Definition Oracle := nat -> Call -> FetchOutcome.

Definition Event : Type := Call * FetchOutcome.
Definition Trace := list Event.

(** The provider calls of a run, with their outcomes, and the result. *)
Fixpoint run {A} (o : Oracle) (n : nat) (m : Prog A) : Trace * Exc A :=
  match m with
  | Ret a => ([], Val a)
  | Throw e => ([], Err e)
  | Fetch c k =>
      let out := o n c in
      let (t, r) := run o (S n) (k out) in
      ((c, out) :: t, r)
  | Log _ k => run o n k
  end.

(** The console output of the same run. *)
Fixpoint console_of {A} (o : Oracle) (n : nat) (m : Prog A) : list LogLine :=
  match m with
  | Ret _ | Throw _ => []
  | Fetch c k => console_of o (S n) (k (o n c))
  | Log l k => l :: console_of o n k
  end.

Definition event_purpose (ev : Event) : Purpose := call_purpose (fst ev).

(** ** The server *)

(** The two environment variables the server reads at start-up. *)
Record ProcessEnv : Type := mkEnv {
  env_GOOGLE_GEMINI_KEY : option jsstring;
  env_AI_PROVIDER : option jsstring
}.

Definition env_var (x : option jsstring) : JsVal :=
  match x with
  | Some s => JStr s
  | None => JUndefined
  end.

Section Server.

Variable env : ProcessEnv.

Definition GOOGLE_GEMINI_KEY : JsVal := env_var (env_GOOGLE_GEMINI_KEY env).

Definition AI_PROVIDER : JsVal :=
  js_or (env_var (env_AI_PROVIDER env)) (JStr (lit "gemini")).

(** [v === "s"] and [v !== "s"]. *)
Definition is_string (v : JsVal) (s : jsstring) : bool :=
  match v with
  | JStr t => jsstring_eqb t s
  | _ => false
  end.

(** The template literal of lines 38-49.  [language] is converted before
    [text]; either conversion can throw. *)
Definition gemini_prompt (text language : JsVal) : Exc jsstring :=
  exc_bind (ToString language) (fun language_string =>
  exc_bind (ToString text) (fun text_string =>
  Val (
    lit "You are a professional dental communication expert. Your job is to refine and polish messages for clarity and professionalism in a dental clinic context."
    ++ newline ++ newline
    ++ lit "IMPORTANT: Apply these refinements:" ++ newline
    ++ lit "1. Fix capitalization (capitalize first word, proper nouns, "
    ++ dquote ++ lit "I" ++ dquote ++ lit ")" ++ newline
    ++ lit "2. Add proper punctuation (periods, commas, question marks, exclamation marks)" ++ newline
    ++ lit "3. Improve grammar and natural flow" ++ newline
    ++ lit "4. Keep the original meaning and intent" ++ newline
    ++ lit "5. Make sentences clear and professional for a medical setting"
    ++ newline ++ newline
    ++ lit "Original message in " ++ language_string ++ lit ": "
    ++ dquote ++ text_string ++ dquote
    ++ newline ++ newline
    ++ lit "Output ONLY the refined message. Do NOT include any explanation, quotes, or extra text. Just output the refined message exactly as it should be spoken or written."))).

(** The URL of line 57; the key is a string when the call is made. *)
Definition gemini_url : jsstring :=
  lit "https://generativelanguage.googleapis.com/v1beta/models/gemini-1.5-pro:generateContent?key="
  ++ match GOOGLE_GEMINI_KEY with
     | JStr key => key
     | _ => lit "undefined"
     end.

Definition gemini_call (prompt : jsstring) : Call :=
  {| call_purpose := Refine;
     call_method := POST;
     call_url := gemini_url;
     call_headers := [(lit "Content-Type", lit "application/json")];
     call_body :=
       Some (JObj [(lit "contents",
               JArr [JObj [(lit "parts",
                 JArr [JObj [(lit "text", JStr prompt)]])]])]) |}.

(** [data.candidates?.[0]?.content?.parts?.[0]?.text]. *)
Definition first_candidate_text (data : JsVal) : Exc JsVal :=
  exc_bind (get data (lit "candidates")) (fun candidates =>
  Val (opt_get
         (opt_get0 (opt_get (opt_get (opt_get0 candidates) (lit "content"))
                      (lit "parts")))
         (lit "text"))).

(** Lines 31-91. *)
Definition refineWithGemini (text language : JsVal) : Prog JsVal :=
  if falsy GOOGLE_GEMINI_KEY then
    console_log [LStr (lit "No Gemini key provided, skipping refinement")] ;;;
    Ret text
  else
    catch
      (prompt <- lift (gemini_prompt text language) ;;
       console_log [LStr (lit "Sending to Gemini...")] ;;;
       response <- fetch (gemini_call prompt) ;;
       if negb (resp_ok response) then
         console_error [LStr (lit "Gemini API error status:");
                        LNum (resp_status response)] ;;;
         errorText <- lift (resp_text response) ;;
         console_error [LStr (lit "Gemini API error response:");
                        LStr errorText] ;;;
         Ret text
       else
         data <- lift (resp_json response) ;;
         console_log [LStr (lit "Gemini response status: ok")] ;;;
         candidate <- lift (first_candidate_text data) ;;
         let refined := js_or candidate text in
         console_log [LStr (lit "Refined text:"); LVal refined] ;;;
         lift (call_trim (lit "refined.trim") refined))
      (fun err =>
         console_error [LStr (lit "Gemini refinement error:"); LStr err] ;;;
         Ret text).

(** The line that [refineOriginalText] prints first (line 94). *)
Definition refining_line : Exc jsstring :=
  exc_bind (ToString AI_PROVIDER) (fun provider =>
  Val (lit "Refining original text with " ++ provider ++ lit "...")).

(** Lines 93-100. *)
Definition refineOriginalText (text language : JsVal) : Prog JsVal :=
  line <- lift refining_line ;;
  console_log [LStr line] ;;;
  if is_string AI_PROVIDER (lit "gemini") then refineWithGemini text language
  else
    console_log [LStr (lit "AI refinement disabled or unsupported provider, returning original text")] ;;;
    Ret text.

(** *** [POST /translate] *)

(** What the handler sends back: [res.status(s).json(payload)]. *)
Record Reply : Type := mkReply {
  status : N;
  payload : JsVal
}.

Definition error_reply (s : N) (msg : jsstring) : Reply :=
  {| status := s; payload := JObj [(lit "error", JStr msg)] |}.

Definition translation_reply (translation : JsVal) : Reply :=
  {| status := 200; payload := JObj [(lit "translation", translation)] |}.

Definition missing_reply : Reply := error_reply 400 (lit "Missing text or target").

Definition no_translation : jsstring := lit "Error: no translation".

(** [const { text, target, source } = req.body]. *)
Definition destructure (body : JsVal) : Exc (JsVal * JsVal * JsVal) :=
  if nullish body then
    Err (lit "Cannot destructure property 'text' of 'req.body' as it is "
         ++ match body with
            | JNull => lit "null"
            | _ => lit "undefined"
            end
         ++ lit ".")
  else
    exc_bind (get body (lit "text")) (fun text =>
    exc_bind (get body (lit "target")) (fun target =>
    exc_bind (get body (lit "source")) (fun source =>
    Val (text, target, source)))).

(** The template literal of line 131. *)
Definition translating_line (text target : JsVal) : Exc jsstring :=
  exc_bind (ToString text) (fun text_string =>
  exc_bind (ToString target) (fun target_string =>
  Val (lit "Translating " ++ dquote ++ text_string ++ dquote
       ++ lit " to " ++ target_string))).

(** [req.body.refine !== false]. *)
Definition refineRequested (body : JsVal) : Exc bool :=
  exc_bind (get body (lit "refine")) (fun refine => Val (is_not_false refine)).

(** The argument of [console.error] at line 141:
    [refineErr && refineErr.message ? refineErr.message : refineErr]. *)
Definition refine_error_arg (refineErr : Exn) : LogArg :=
  match refineErr with
  | [] => LErr refineErr
  | _ :: _ => LStr refineErr
  end.

(** Lines 134-144: the refinement step. *)
Definition refine_step (body text source : JsVal) : Prog JsVal :=
  requested <- lift (refineRequested body) ;;
  if negb (is_string AI_PROVIDER (lit "none")) && requested then
    catch
      (refinedText <-
         refineOriginalText text (js_or source (JStr (lit "English"))) ;;
       console_log [LStr (lit "Using refined original text:");
                    LVal refinedText] ;;;
       Ret refinedText)
      (fun refineErr =>
         console_error
           [LStr (lit "Original text refinement failed, using raw text:");
            refine_error_arg refineErr] ;;;
         Ret text)
  else Ret text.

(** The language table of lines 147-156, an object literal. *)
Definition languages : list (jsstring * JsVal) :=
  map (fun kv => (lit (fst kv), JStr (lit (snd kv))))
    [("Spanish", "es"); ("French", "fr"); ("Mandarin", "zh-CN");
     ("German", "de"); ("Portuguese", "pt"); ("Italian", "it");
     ("Japanese", "ja"); ("English", "en")]%string.

(** [languages[name] || name]: the property key is [name] converted to a
    string, which can throw. *)
Definition resolve_language (name : JsVal) : Exc JsVal :=
  exc_bind (ToString name) (fun key =>
  Val (js_or (object_get languages key) name)).

(** Line 158. *)
Definition targetLang (target : JsVal) : Exc JsVal := resolve_language target.

(** Line 161. *)
Definition client_source (source : JsVal) : Exc JsVal :=
  if truthy source then resolve_language source else Val JNull.

Definition uri_malformed : Exn := lit "URI malformed".

(** [encodeURIComponent(v)]. *)
Definition encode (v : JsVal) : Exc jsstring :=
  exc_bind (ToString v) (fun s =>
  match encodeURIComponent s with
  | Some q => Val q
  | None => Err uri_malformed
  end).

Definition mymemory_url (q langpair : jsstring) : jsstring :=
  lit "https://api.mymemory.translated.net/get?q=" ++ q
  ++ lit "&langpair=" ++ langpair.

Definition detect_call (q : jsstring) : Call :=
  {| call_purpose := Detect;
     call_method := GET;
     call_url := mymemory_url q (lit "en|en");
     call_headers := [];
     call_body := None |}.

(** The call of lines 176-178, with the source and target codes already
    converted to strings. *)
Definition translate_call (q sourceLangCode tgt : jsstring) : Call :=
  {| call_purpose := Translate;
     call_method := GET;
     call_url := mymemory_url q (sourceLangCode ++ lit "|" ++ tgt);
     call_headers := [];
     call_body := None |}.

Definition unsupported_pair : jsstring := lit "Language pair not supported".

(** Line 169. *)
Definition detected_source (detectData : JsVal) : Exc JsVal :=
  exc_bind (get detectData (lit "responseDetails")) (fun details =>
  exc_bind (opt_match (lit "detectData.responseDetails?.match") details
              unsupported_pair) (fun unsupported =>
  if unsupported then Val (JStr (lit "en"))
  else
    exc_bind (get detectData (lit "responseMetadata")) (fun metadata =>
    Val (js_or (opt_get metadata (lit "detectedLanguage"))
               (JStr (lit "en")))))).

(** The template literal of line 170. *)
Definition detected_line (sourceLangCode : JsVal) : Exc jsstring :=
  exc_bind (ToString sourceLangCode) (fun code =>
  Val (lit "Detected source language: " ++ code)).

(** The template literal of line 172. *)
Definition client_source_line (source sourceLangCode : JsVal) : Exc jsstring :=
  exc_bind (ToString source) (fun name =>
  exc_bind (ToString sourceLangCode) (fun code =>
  Val (lit "Using client-provided source language: " ++ name
       ++ lit " -> " ++ code))).

(** Lines 161-173: the source code, from the client or by detection. *)
Definition resolve_source (source refinedText : JsVal) : Prog JsVal :=
  sourceLangCode <- lift (client_source source) ;;
  if falsy sourceLangCode then
    q <- lift (encode refinedText) ;;
    detectResponse <- fetch (detect_call q) ;;
    detectData <- lift (resp_json detectResponse) ;;
    detected <- lift (detected_source detectData) ;;
    line <- lift (detected_line detected) ;;
    console_log [LStr line] ;;;
    Ret detected
  else
    line <- lift (client_source_line source sourceLangCode) ;;
    console_log [LStr line] ;;;
    Ret sourceLangCode.

(** Line 184. *)
Definition translated_text (data : JsVal) : Exc JsVal :=
  exc_bind (get data (lit "responseData")) (fun responseData =>
  Val (js_or (opt_get responseData (lit "translatedText"))
             (JStr no_translation))).

(** Lines 146-187: everything after the refinement step.  The template
    literal of line 177 converts the text, then the source code, then the
    target code. *)
Definition translate_pipeline (target source refinedText : JsVal) : Prog Reply :=
  tgt <- lift (targetLang target) ;;
  sourceLangCode <- resolve_source source refinedText ;;
  q <- lift (encode refinedText) ;;
  source_string <- lift (ToString sourceLangCode) ;;
  target_string <- lift (ToString tgt) ;;
  translationResponse <- fetch (translate_call q source_string target_string) ;;
  data <- lift (resp_json translationResponse) ;;
  console_log [LStr (lit "Translation API response:"); LVal data] ;;;
  translation <- lift (translated_text data) ;;
  console_log [LStr (lit "Raw translation:"); LVal translation] ;;;
  Ret (translation_reply translation).

(** The body of the handler's [try]. *)
Definition translate_try (body : JsVal) : Prog Reply :=
  console_log [LStr (lit "Received request:"); LVal body] ;;;
  ' (text, target, source) <- lift (destructure body) ;;
  if falsy text || falsy target then Ret missing_reply
  else
    line <- lift (translating_line text target) ;;
    console_log [LStr line] ;;;
    refinedText <- refine_step body text source ;;
    translate_pipeline target source refinedText.

Definition failure_reply (err : Exn) : Reply :=
  error_reply 500 (lit "Translation failed: " ++ err).

(** [app.post("/translate", ...)], applied to [req.body]. *)
Definition translate_route (body : JsVal) : Prog Reply :=
  catch (translate_try body)
    (fun err =>
       console_error [LStr (lit "Error details:"); LStr err] ;;;
       console_error [LStr (lit "Full error:"); LErr err] ;;;
       Ret (failure_reply err)).

End Server.

(** [handle env o body]: the calls made and the reply sent for one
    request. *)
Definition handle (env : ProcessEnv) (o : Oracle) (body : JsVal)
  : Trace * Exc Reply :=
  run o 0 (translate_route env body).

(** [console env o body]: what the handler prints for the same request. *)
Definition console (env : ProcessEnv) (o : Oracle) (body : JsVal)
  : list LogLine :=
  console_of o 0 (translate_route env body).

(** ** The status endpoints *)

(** Lines 107-112: [aiStatusHandler], mounted on GET and POST
    [/ai-status].  [!!GOOGLE_GEMINI_KEY] is [truthy]. *)
Definition aiStatusHandler (env : ProcessEnv) : Reply :=
  {| status := 200;
     payload := JObj [(lit "provider", AI_PROVIDER env);
                      (lit "geminiEnabled",
                       JBool (truthy (GOOGLE_GEMINI_KEY env)))] |}.

(** Lines 118-120: GET [/ping]. *)
Definition ping (env : ProcessEnv) : Reply :=
  {| status := 200;
     payload := JObj [(lit "ok", JBool true);
                      (lit "provider", AI_PROVIDER env);
                      (lit "geminiEnabled",
                       JBool (truthy (GOOGLE_GEMINI_KEY env)))] |}.

(** * Notions used in the statements *)

(** [wp m Q]: every run of [m], whatever the providers answer, produces a
    trace and an outcome related by [Q]. *)
Fixpoint wp {A} (m : Prog A) (Q : Trace -> Exc A -> Prop) : Prop :=
  match m with
  | Ret a => Q [] (Val a)
  | Throw e => Q [] (Err e)
  | Fetch c k => forall out, wp (k out) (fun t r => Q ((c, out) :: t) r)
  | Log _ k => wp k Q
  end.

(** [prints m P]: every line that [m] prints, whatever the providers
    answer, satisfies [P]. *)
Fixpoint prints {A} (m : Prog A) (P : LogLine -> Prop) : Prop :=
  match m with
  | Ret _ | Throw _ => True
  | Fetch _ k => forall out, prints (k out) P
  | Log l k => P l /\ prints k P
  end.

(** The providers as seen after the first call of a request. *)
Definition after_first (o : Oracle) : Oracle := fun n => o (S n).

(** What [refineWithGemini] returns, as a function of the provider's answer. *)
Definition refined_of (text : JsVal) (out : FetchOutcome) : JsVal :=
  match out with
  | Rejected _ => text
  | Resolved response =>
      if resp_ok response then
        match resp_json response with
        | Err _ => text
        | Val data =>
            match first_candidate_text data with
            | Err _ => text
            | Val candidate =>
                match call_trim (lit "refined.trim") (js_or candidate text) with
                | Val refined => refined
                | Err _ => text
                end
            end
        end
      else text
  end.

(** The call that the request with body [fields] makes to Gemini, if
    any: both tests of [AI_PROVIDER], the [refine] flag and the credential
    let it through, and the prompt can be built. *)
Definition gemini_request (env : ProcessEnv) (fields : list (jsstring * JsVal))
  : option Call :=
  if negb (is_string (AI_PROVIDER env) (lit "none"))
     && is_not_false (object_get fields (lit "refine"))
     && is_string (AI_PROVIDER env) (lit "gemini")
     && truthy (GOOGLE_GEMINI_KEY env)
  then
    match gemini_prompt (object_get fields (lit "text"))
            (js_or (object_get fields (lit "source")) (JStr (lit "English")))
    with
    | Val prompt => Some (gemini_call env prompt)
    | Err _ => None
    end
  else None.

(** The request with body [fields] reaches the [fetch] of
    [refineWithGemini]. *)
Definition calls_gemini (env : ProcessEnv) (fields : list (jsstring * JsVal))
  : bool :=
  match gemini_request env fields with
  | Some _ => true
  | None => false
  end.

(** The reply sent once the outer [catch] has handled an exception. *)
Definition reply_of (r : Exc Reply) : Reply :=
  match r with
  | Val rp => rp
  | Err e => failure_reply e
  end.

(** The call of [ev] is a MyMemory request whose [q] parameter is
    [encodeURIComponent(v)]. *)
Definition carries (v : JsVal) (ev : Event) : Prop :=
  exists q langpair,
    encode v = Val q /\ call_url (fst ev) = mymemory_url q langpair.

(** The own field [k] of [v], [undefined] when [v] has none. *)
Definition field_of (v : JsVal) (k : jsstring) : JsVal :=
  match v with
  | JObj fields =>
      match own fields k with
      | Some x => x
      | None => JUndefined
      end
  | _ => JUndefined
  end.

(** [v] is an object with an own field [k]. *)
Definition has_field (v : JsVal) (k : jsstring) : bool :=
  match v with
  | JObj fields =>
      match own fields k with
      | Some _ => true
      | None => false
      end
  | _ => false
  end.

(** [k] names a property of [Object.prototype]. *)
Definition inherited (k : jsstring) : bool := truthy (object_prototype_get k).




(** The refinement call failed: [fetch] rejected (an exception, or the
    abort of the ten-second timer), the status was not a success, or the
    body could not be parsed. *)
Definition refinement_failed (out : FetchOutcome) : bool :=
  match out with
  | Rejected _ => true
  | Resolved response =>
      negb (resp_ok response)
      || match resp_json response with
         | Err _ => true
         | Val _ => false
         end
  end.

(** The same process with [AI_PROVIDER=none]. *)
Definition refinement_off (env : ProcessEnv) : ProcessEnv :=
  {| env_GOOGLE_GEMINI_KEY := env_GOOGLE_GEMINI_KEY env;
     env_AI_PROVIDER := Some (lit "none") |}.

(** [text.trim()] when [text] is a string; other values have no [trim]
    and come back unchanged. *)
Definition trimmed_text (text : JsVal) : JsVal :=
  match text with
  | JStr s => JStr (trim s)
  | _ => text
  end.

(** The purposes of the calls of a trace, in order. *)
Definition purposes (t : Trace) : list Purpose := map event_purpose t.

(** The calls of a trace, without the outcomes. *)
Definition calls (t : Trace) : list Call := map fst t.

(** The field [responseData.translatedText] of a translation response. *)
Definition translated_field (data : JsVal) : JsVal :=
  field_of (field_of data (lit "responseData")) (lit "translatedText").

(** What the handler reads from the outcome of a MyMemory call: the parsed
    body, or the exception of [fetch] or of [json()]. *)
Definition answer (out : FetchOutcome) : Exc JsVal :=
  match out with
  | Rejected e => Err e
  | Resolved response => resp_json response
  end.

(** [alike m m']: [m] and [m'] make the same calls, none of them to the
    refinement provider, and end with the same outcome, whenever the
    outcomes of their calls agree in what [answer] keeps of them. *)
Fixpoint alike {A} (m m' : Prog A) : Prop :=
  match m, m' with
  | Ret a, Ret a' => a = a'
  | Throw e, Throw e' => e = e'
  | Log _ k, Log _ k' => alike k k'
  | Fetch c k, Fetch c' k' =>
      c = c' /\ call_purpose c <> Refine
      /\ forall out out', answer out = answer out' -> alike (k out) (k' out')
  | _, _ => False
  end.

Definition mymemory_prefix : jsstring :=
  lit "https://api.mymemory.translated.net/get?q=".

(** A character that [encodeURIComponent] can produce: an unreserved one,
    or the percent sign of an escape. *)
Definition query_safe (c : N) : Prop := uri_unreserved c = true \/ c = 37.

(** Code units are 16-bit. *)
Definition well_formed (s : jsstring) : Prop := Forall (fun c => c < 65536) s.

(** [v] can be converted to a string. *)
Definition printable (v : JsVal) : bool :=
  match ToString v with
  | Val _ => true
  | Err _ => false
  end.

(** The line that [refineOriginalText] prints on entry. *)
Definition is_refining_line (l : LogLine) : bool :=
  match log_args l with
  | [LStr s] => starts_with (lit "Refining original text with ") s
  | _ => false
  end.

(** ** Concrete requests and providers *)

Module Examples.

Definition env_with_key : ProcessEnv :=
  {| env_GOOGLE_GEMINI_KEY := Some (lit "KEY"); env_AI_PROVIDER := None |}.

Definition env_without_key : ProcessEnv :=
  {| env_GOOGLE_GEMINI_KEY := None; env_AI_PROVIDER := None |}.

Definition ok_json (data : JsVal) : FetchOutcome :=
  Resolved {| resp_ok := true; resp_status := 200;
              resp_text := Val []; resp_json := Val data |}.

Definition server_error : FetchOutcome :=
  Resolved {| resp_ok := false; resp_status := 500;
              resp_text := Val (lit "Internal error");
              resp_json := Err (lit "Unexpected token I in JSON at position 0") |}.

Definition translated (s : jsstring) : JsVal :=
  JObj [(lit "responseData", JObj [(lit "translatedText", JStr s)])].

(** Every call is answered with the translation [hello]. *)
Definition says_hello : Oracle := fun _ _ => ok_json (translated (lit "hello")).

(** Every call is answered with an empty JSON object. *)
Definition says_nothing : Oracle := fun _ _ => ok_json (JObj []).

(** Gemini is down; MyMemory translates. *)
Definition gemini_down : Oracle := fun _ c =>
  match call_purpose c with
  | Refine => server_error
  | _ => ok_json (translated (lit "hello"))
  end.

(** The scenario of the specification:
    [{text: "hola", target: "English", source: "Spanish", refine: false}]. *)
Definition hola : list (jsstring * JsVal) :=
  [(lit "text", JStr (lit "hola")); (lit "target", JStr (lit "English"));
   (lit "source", JStr (lit "Spanish")); (lit "refine", JBool false)].

(** The prompt built for a text and a language that can be printed. *)
Definition prompt_of (text language : JsVal) : jsstring :=
  match gemini_prompt text language with
  | Val prompt => prompt
  | Err _ => []
  end.

Definition hola_prompt : jsstring :=
  prompt_of (JStr (lit "hola")) (JStr (lit "English")).

(** [{text: "hola", target: "English"}]. *)
Definition hola_plain : list (jsstring * JsVal) :=
  [(lit "text", JStr (lit "hola")); (lit "target", JStr (lit "English"))].

(** [{target: "English"}]. *)
Definition no_text : list (jsstring * JsVal) :=
  [(lit "target", JStr (lit "English"))].

(** [{text: "", target: "English"}]. *)
Definition empty_text : list (jsstring * JsVal) :=
  [(lit "text", JStr []); (lit "target", JStr (lit "English"))].

(** Every call is answered with the JSON value [null]. *)
Definition says_null : Oracle := fun _ _ => ok_json JNull.



(** [{text: "hola", target: "constructor", source: "Spanish",
      refine: false}]. *)
Definition to_constructor : list (jsstring * JsVal) :=
  [(lit "text", JStr (lit "hola")); (lit "target", JStr (lit "constructor"));
   (lit "source", JStr (lit "Spanish")); (lit "refine", JBool false)].

End Examples.

Module MoreExamples.

(** [AI_PROVIDER=openai], a value the dispatcher does not know. *)
Definition env_openai : ProcessEnv :=
  {| env_GOOGLE_GEMINI_KEY := Some (lit "KEY");
     env_AI_PROVIDER := Some (lit "openai") |}.

(** No call gets through. *)
Definition unreachable : Oracle := fun _ _ => Rejected (lit "network down").

(** MyMemory answers every call with status 429 and a JSON body that
    carries a [translatedText]. *)
Definition quota_exceeded : Oracle := fun n c =>
  match call_purpose c with
  | Refine => Examples.says_hello n c
  | _ =>
      Resolved {| resp_ok := false; resp_status := 429;
                  resp_text := Val [];
                  resp_json := Val (Examples.translated (lit "hello")) |}
  end.

(** A Gemini body whose first candidate holds [s]. *)
Definition candidate (s : jsstring) : JsVal :=
  JObj [(lit "candidates",
         JArr [JObj [(lit "content",
                      JObj [(lit "parts",
                             JArr [JObj [(lit "text", JStr s)]])])]])].

(** Gemini polishes the text into [" Hola. "]; MyMemory translates. *)
Definition gemini_polishes : Oracle := fun _ c =>
  match call_purpose c with
  | Refine => Examples.ok_json (candidate (lit " Hola. "))
  | _ => Examples.ok_json (Examples.translated (lit "hello"))
  end.

(** [{text: "\uD800", target: "English", refine: false}]: the text is a
    lone surrogate. *)
Definition lone_surrogate : list (jsstring * JsVal) :=
  [(lit "text", JStr [55296]); (lit "target", JStr (lit "English"));
   (lit "refine", JBool false)].

(** [{text: "a&b=c", target: "English", source: "Spanish",
      refine: false}]. *)
Definition ampersand : list (jsstring * JsVal) :=
  [(lit "text", JStr (lit "a&b=c")); (lit "target", JStr (lit "English"));
   (lit "source", JStr (lit "Spanish")); (lit "refine", JBool false)].

End MoreExamples.

(** * Properties *)

Arguments lit : simpl never.

(** ** Strings *)

Lemma jsstring_eqb_eq (a b : jsstring) : jsstring_eqb a b = true <-> a = b.
Proof.
  revert b; induction a as [|x a IH]; intros [|y b]; simpl; split;
    try congruence; try reflexivity.
  - intros H. apply andb_true_iff in H as [Hxy Hab].
    apply N.eqb_eq in Hxy. apply IH in Hab. congruence.
  - intros H. injection H as -> ->.
    apply andb_true_iff. split; [apply N.eqb_refl | now apply IH].
Qed.

(** ** ToString *)


Lemma printable_string (v : JsVal) :
  printable v = true -> exists s, ToString v = Val s.
Proof. unfold printable. destruct (ToString v) as [s|e]; [eauto|discriminate]. Qed.

(** ** Runs *)

Section Runs.

Context {A B : Type}.

Lemma run_bind (m : Prog A) (f : A -> Prog B) (o : Oracle) (n : nat) :
  run o n (bind m f) =
  match run o n m with
  | (t, Val a) =>
      let (t', r) := run o (List.length t + n) (f a) in (t ++ t', r)
  | (t, Err e) => (t, Err e)
  end.
Proof.
  revert n. induction m as [a|e|c k IH|l k IH]; intros n; simpl.
  - now destruct (run o n (f a)).
  - reflexivity.
  - rewrite IH. destruct (run o (S n) (k (o n c))) as [t [a|e]]; simpl.
    + rewrite <- plus_n_Sm. now destruct (run o _ (f a)).
    + reflexivity.
  - apply IH.
Qed.

Lemma run_catch (m : Prog A) (h : Exn -> Prog A) (o : Oracle) (n : nat) :
  run o n (catch m h) =
  match run o n m with
  | (t, Val a) => (t, Val a)
  | (t, Err e) =>
      let (t', r) := run o (List.length t + n) (h e) in (t ++ t', r)
  end.
Proof.
  revert n. induction m as [a|e|c k IH|l k IH]; intros n; simpl.
  - reflexivity.
  - now destruct (run o n (h e)).
  - rewrite IH. destruct (run o (S n) (k (o n c))) as [t [a|e]]; simpl.
    + reflexivity.
    + rewrite <- plus_n_Sm. now destruct (run o _ (h e)).
  - apply IH.
Qed.

(** The console output of a sequence: that of the first part, then that
    of the second if the first returns. *)
Lemma console_bind (m : Prog A) (f : A -> Prog B) (o : Oracle) (n : nat) :
  console_of o n (bind m f) =
  console_of o n m
  ++ match run o n m with
     | (t, Val a) => console_of o (List.length t + n) (f a)
     | (_, Err _) => []
     end.
Proof.
  revert n. induction m as [a|e|c k IH|l k IH]; intros n; simpl.
  - reflexivity.
  - reflexivity.
  - rewrite IH. destruct (run o (S n) (k (o n c))) as [t [a|e]]; simpl.
    + now rewrite <- plus_n_Sm.
    + reflexivity.
  - now rewrite IH.
Qed.

Lemma console_catch (m : Prog A) (h : Exn -> Prog A) (o : Oracle) (n : nat) :
  console_of o n (catch m h) =
  console_of o n m
  ++ match run o n m with
     | (_, Val _) => []
     | (t, Err e) => console_of o (List.length t + n) (h e)
     end.
Proof.
  revert n. induction m as [a|e|c k IH|l k IH]; intros n; simpl.
  - reflexivity.
  - reflexivity.
  - rewrite IH. destruct (run o (S n) (k (o n c))) as [t [a|e]]; simpl.
    + reflexivity.
    + now rewrite <- plus_n_Sm.
  - now rewrite IH.
Qed.

End Runs.

Section Wp.

Context {A : Type}.

Lemma wp_run (m : Prog A) (Q : Trace -> Exc A -> Prop) :
  wp m Q -> forall o n, Q (fst (run o n m)) (snd (run o n m)).
Proof.
  revert Q. induction m as [a|e|c k IH|l k IH]; intros Q H o n; simpl in *.
  - assumption.
  - assumption.
  - specialize (IH _ _ (H (o n c)) o (S n)).
    now destruct (run o (S n) (k (o n c))).
  - now apply IH.
Qed.

End Wp.

(** ** Closed forms of the refinement step and of the handler *)

Lemma run_after_first {A} (m : Prog A) (o : Oracle) (n : nat) :
  run o (S n) m = run (after_first o) n m.
Proof.
  revert n. induction m as [a|e|c k IH|l k IH]; intros n; simpl;
    try reflexivity.
  - unfold after_first at 1 3. now rewrite IH.
  - apply IH.
Qed.

Lemma refineWithGemini_run env text language o n :
  truthy (GOOGLE_GEMINI_KEY env) = true ->
  run o n (refineWithGemini env text language) =
  match gemini_prompt text language with
  | Val prompt =>
      let c := gemini_call env prompt in
      ([(c, o n c)], Val (refined_of text (o n c)))
  | Err _ => ([], Val text)
  end.
Proof.
  intros Hkey. unfold refineWithGemini, falsy. rewrite Hkey. cbn [negb].
  destruct (gemini_prompt text language) as [prompt|e];
    cbn [lift fetch catch bind run console_log console_error];
    [|reflexivity].
  destruct (o n _) as [e|response];
    cbn [catch bind run refined_of console_log console_error]; [reflexivity|].
  destruct (resp_ok response); cbn [negb].
  - destruct (resp_json response) as [data|e];
      cbn [lift catch bind run console_log console_error]; [|reflexivity].
    destruct (first_candidate_text data) as [candidate|e];
      cbn [lift catch bind run console_log console_error]; [|reflexivity].
    now destruct (call_trim _ _).
  - cbn [lift catch bind run console_log console_error].
    now destruct (resp_text response).
Qed.

Lemma AI_PROVIDER_string env : exists c s, AI_PROVIDER env = JStr (c :: s).
Proof.
  unfold AI_PROVIDER, js_or.
  destruct (env_AI_PROVIDER env) as [[|c s]|]; cbn [env_var truthy]; eauto.
  all: vm_compute; eauto.
Qed.

Lemma refining_line_defined env : exists line, refining_line env = Val line.
Proof.
  unfold refining_line. destruct (AI_PROVIDER_string env) as (c & s & ->).
  cbn [ToString exc_bind]. eauto.
Qed.

Lemma refineOriginalText_run env text language o n :
  run o n (refineOriginalText env text language) =
  if is_string (AI_PROVIDER env) (lit "gemini")
  then run o n (refineWithGemini env text language)
  else ([], Val text).
Proof.
  unfold refineOriginalText.
  destruct (refining_line_defined env) as [line ->].
  cbn [lift bind run console_log].
  now destruct (is_string (AI_PROVIDER env) (lit "gemini")).
Qed.

Lemma refine_step_run env fields o n :
  let text := object_get fields (lit "text") in
  let source := object_get fields (lit "source") in
  run o n (refine_step env (JObj fields) text source) =
  match gemini_request env fields with
  | Some c => ([(c, o n c)], Val (refined_of text (o n c)))
  | None => ([], Val text)
  end.
Proof.
  cbv zeta. unfold refine_step, refineRequested, gemini_request.
  cbn [get exc_bind lift bind].
  destruct (negb (is_string (AI_PROVIDER env) (lit "none"))); cbn [andb];
    [|reflexivity].
  destruct (is_not_false _); cbn [andb]; [|reflexivity].
  rewrite run_catch, run_bind, refineOriginalText_run.
  destruct (is_string (AI_PROVIDER env) (lit "gemini")); cbn [andb];
    [|reflexivity].
  destruct (truthy (GOOGLE_GEMINI_KEY env)) eqn:Hkey.
  - rewrite refineWithGemini_run by assumption.
    now destruct (gemini_prompt _ _).
  - unfold refineWithGemini, falsy. rewrite Hkey. reflexivity.
Qed.

Lemma run_reply (m : Prog Reply) o n :
  run o n (catch m (fun err =>
             console_error [LStr (lit "Error details:"); LStr err] ;;;
             console_error [LStr (lit "Full error:"); LErr err] ;;;
             Ret (failure_reply err)))
  = (fst (run o n m), Val (reply_of (snd (run o n m)))).
Proof.
  rewrite run_catch. destruct (run o n m) as [t [rp|e]]; simpl; [reflexivity|].
  now rewrite app_nil_r.
Qed.

Lemma handle_rejected env o fields :
  falsy (object_get fields (lit "text"))
  || falsy (object_get fields (lit "target")) = true ->
  handle env o (JObj fields) = ([], Val missing_reply).
Proof.
  intros H. unfold handle, translate_route. rewrite run_reply.
  unfold translate_try.
  cbn [destructure nullish get exc_bind lift bind run console_log].
  now rewrite H.
Qed.

Lemma handle_valid env o fields :
  let text := object_get fields (lit "text") in
  let target := object_get fields (lit "target") in
  let source := object_get fields (lit "source") in
  falsy text || falsy target = false ->
  handle env o (JObj fields) =
  match translating_line text target with
  | Err e => ([], Val (failure_reply e))
  | Val _ =>
      match gemini_request env fields with
      | Some c =>
          let out := o 0%nat c in
          let (t, r) :=
            run (after_first o) 0
              (translate_pipeline target source (refined_of text out)) in
          ((c, out) :: t, Val (reply_of r))
      | None =>
          let (t, r) := run o 0 (translate_pipeline target source text) in
          (t, Val (reply_of r))
      end
  end.
Proof.
  cbv zeta. intros H. unfold handle, translate_route.
  rewrite run_reply. unfold translate_try.
  cbn [destructure nullish get exc_bind lift bind run console_log].
  rewrite H.
  destruct (translating_line _ _) as [line|e];
    cbn [lift bind run console_log]; [|reflexivity].
  rewrite run_bind, refine_step_run.
  destruct (gemini_request env fields) as [c|]; cbv zeta.
  - cbn [List.length Nat.add]. rewrite run_after_first.
    now destruct (run _ _ _).
  - cbn [List.length Nat.add]. now destruct (run _ _ _).
Qed.

(** ** The translation pipeline *)

Ltac stuck_on m :=
  lazymatch m with
  | bind ?m' _ => stuck_on m'
  | catch ?m' _ => stuck_on m'
  | lift ?x => x
  | match ?x with _ => _ end => x
  end.

Ltac wp_step :=
  lazymatch goal with
  | |- forall out : FetchOutcome, _ => intros [?e|?response]
  | |- wp ?m _ => let x := stuck_on m in destruct x eqn:?
  end;
  cbn [wp bind lift fetch catch console_log console_error].

Ltac wp_start :=
  cbn [wp bind lift fetch catch console_log console_error]; repeat wp_step.

Lemma pipeline_calls target source rt :
  wp (translate_pipeline target source rt) (fun t r =>
    Forall (fun ev => event_purpose ev <> Refine) t
    /\ Forall (carries rt) t
    /\ (forall rp, r = Val rp ->
        status rp = 200 /\ Exists (fun ev => event_purpose ev = Translate) t)).
Proof.
  unfold translate_pipeline, resolve_source. wp_start.
  all: split; [|split].
  all: repeat (apply Forall_cons || apply Forall_nil); try discriminate.
  all: try (eexists _, _; split; [eassumption|reflexivity]).
  all: intros rp [= <-]; split; try reflexivity.
  all: repeat (try (apply Exists_cons_hd; reflexivity); apply Exists_cons_tl).
Qed.

Lemma not_inherited k :
  inherited k = false -> object_prototype_get k = JUndefined.
Proof.
  unfold inherited, object_prototype_get.
  destruct (jsstring_eqb k (lit "constructor")); [discriminate|].
  destruct (jsstring_eqb k (lit "__proto__")); [discriminate|].
  destruct (existsb _ _); [discriminate|reflexivity].
Qed.

Lemma object_get_field fields k :
  inherited k = false -> object_get fields k = field_of (JObj fields) k.
Proof.
  intros H. unfold object_get, field_of.
  destruct (own fields k); [reflexivity|now apply not_inherited].
Qed.

Lemma opt_get_field v k :
  inherited k = false -> opt_get v k = field_of v k.
Proof.
  intros H. destruct v; try reflexivity.
  - now apply object_get_field.
  - now apply not_inherited.
Qed.

Lemma get_field v k :
  inherited k = false -> nullish v = false -> get v k = Val (field_of v k).
Proof.
  intros H Hn. destruct v; try discriminate; try reflexivity.
  - simpl. now rewrite object_get_field.
  - simpl. now rewrite not_inherited.
Qed.


Lemma has_field_false v k : has_field v k = false -> field_of v k = JUndefined.
Proof.
  destruct v; try reflexivity. simpl. now destruct (own fields k).
Qed.

Lemma translated_text_field data :
  nullish data = false ->
  translated_text data
  = Val (js_or (translated_field data) (JStr no_translation)).
Proof.
  intros Hnn. unfold translated_text, translated_field.
  rewrite get_field by (assumption || reflexivity).
  cbn [exc_bind]. now rewrite opt_get_field by reflexivity.
Qed.

Lemma translated_text_lacking data :
  nullish data = false ->
  has_field (field_of data (lit "responseData")) (lit "translatedText") = false ->
  translated_text data = Val (JStr no_translation).
Proof.
  intros Hnn Hno. rewrite translated_text_field by assumption.
  unfold translated_field. now rewrite (has_field_false _ _ Hno).
Qed.

Lemma pipeline_marker target source rt :
  wp (translate_pipeline target source rt) (fun t r =>
    forall c response data,
      In (c, Resolved response) t -> call_purpose c = Translate ->
      resp_json response = Val data ->
      nullish data = false ->
      has_field (field_of data (lit "responseData")) (lit "translatedText")
      = false ->
      r = Val (translation_reply (JStr no_translation))).
Proof.
  unfold translate_pipeline, resolve_source. wp_start.
  all: intros c resp data Hin Hc Hjson Hnn Hlacks.
  all: repeat (destruct Hin as [[= <- <-]|Hin]; try discriminate); try contradiction.
  all: try congruence.
  all: pose proof (translated_text_lacking data Hnn Hlacks); congruence.
Qed.





(** ** The handler on a JSON object *)

Lemma own_object_get fields k v : own fields k = Some v -> object_get fields k = v.
Proof. unfold object_get. now intros ->. Qed.

Lemma own_none_undefined fields k :
  inherited k = false -> own fields k = None -> object_get fields k = JUndefined.
Proof.
  intros Hk H. rewrite object_get_field by assumption. simpl. now rewrite H.
Qed.

Lemma status_reply_of r :
  status (reply_of r) = 200 -> exists rp, r = Val rp.
Proof.
  destruct r as [rp|e]; [now exists rp|]. discriminate.
Qed.

Lemma calls_gemini_request env fields :
  calls_gemini env fields = false -> gemini_request env fields = None.
Proof. unfold calls_gemini. now destruct (gemini_request env fields). Qed.

Lemma gemini_request_call env fields c :
  gemini_request env fields = Some c ->
  exists prompt,
    gemini_prompt (object_get fields (lit "text"))
      (js_or (object_get fields (lit "source")) (JStr (lit "English")))
    = Val prompt
    /\ c = gemini_call env prompt.
Proof.
  unfold gemini_request. destruct (_ && _); [|discriminate].
  destruct (gemini_prompt _ _) as [prompt|e]; [|discriminate].
  intros [= <-]. now exists prompt.
Qed.

Lemma gemini_request_purpose env fields c :
  gemini_request env fields = Some c -> call_purpose c = Refine.
Proof.
  intros H. apply gemini_request_call in H as (prompt & _ & ->). reflexivity.
Qed.

(** A valid request fails on line 131, or runs the translation pipeline
    after at most one call to the refinement provider. *)
Lemma handle_pipeline env o fields :
  let text := object_get fields (lit "text") in
  let target := object_get fields (lit "target") in
  let source := object_get fields (lit "source") in
  falsy text || falsy target = false ->
  (exists e,
     translating_line text target = Err e
     /\ handle env o (JObj fields) = ([], Val (failure_reply e)))
  \/ exists pre o' refinedText,
       Forall (fun ev => event_purpose ev = Refine) pre
       /\ handle env o (JObj fields) =
          (pre ++ fst (run o' 0 (translate_pipeline target source refinedText)),
           Val (reply_of
                  (snd (run o' 0
                          (translate_pipeline target source refinedText))))).
Proof.
  cbv zeta. intros Hvalid. rewrite handle_valid by assumption.
  destruct (translating_line _ _) as [line|e]; [|left; now exists e].
  right. destruct (gemini_request env fields) as [c|] eqn:Hreq; cbv zeta.
  - destruct (run _ _ _) as [t r] eqn:Hrun.
    eexists [(_, _)], (after_first o), _. rewrite Hrun. split; cycle 1.
    + reflexivity.
    + constructor; [|constructor].
      exact (gemini_request_purpose env fields c Hreq).
  - exists [], o, (object_get fields (lit "text")). split; [constructor|].
    now destruct (run _ _ _).
Qed.

Lemma in_after_refine (pre t : Trace) c out :
  Forall (fun ev => event_purpose ev = Refine) pre ->
  In (c, out) (pre ++ t) -> call_purpose c = Translate -> In (c, out) t.
Proof.
  intros Hpre Hin Hc. apply in_app_or in Hin as [Hin|Hin]; [|assumption].
  rewrite Forall_forall in Hpre. apply Hpre in Hin.
  unfold event_purpose in Hin. simpl in Hin. congruence.
Qed.

(** Without a call to Gemini, the request is the translation pipeline run
    on the original text. *)
Lemma handle_unrefined env o fields :
  calls_gemini env fields = false ->
  let text := object_get fields (lit "text") in
  let t := fst (handle env o (JObj fields)) in
  let r := snd (handle env o (JObj fields)) in
  Forall (fun ev => event_purpose ev <> Refine) t
  /\ Forall (carries text) t
  /\ (forall rp, r = Val rp -> status rp = 200 ->
      Exists (fun ev => event_purpose ev = Translate) t).
Proof.
  intros Hno. cbv zeta. apply calls_gemini_request in Hno.
  destruct (falsy (object_get fields (lit "text"))
            || falsy (object_get fields (lit "target"))) eqn:Hvalid.
  - rewrite handle_rejected by assumption. cbn [fst snd].
    repeat split; try constructor. intros rp [= <-]. discriminate.
  - rewrite handle_valid by assumption. rewrite Hno.
    destruct (translating_line _ _) as [line|e].
    + pose proof (wp_run _ _ (pipeline_calls
        (object_get fields (lit "target")) (object_get fields (lit "source"))
        (object_get fields (lit "text"))) o 0%nat) as (Hnr & Hc & Hst).
      destruct (run o 0 _) as [t r]; cbn [fst snd] in *.
      repeat split; try assumption.
      intros rp [= <-] H200. apply status_reply_of in H200 as [rp ->].
      now apply (Hst rp).
    + cbn [fst snd].
      repeat split; try constructor. intros rp [= <-]. discriminate.
Qed.

(** ** Validation *)

(** C2.  A request whose body has no [text] field or no [target] field is
    answered with status 400 and the error body
    [{error: "Missing text or target"}], and no provider is called: the
    trace of calls is empty. *)
Theorem missing_field_rejected (env : ProcessEnv) (o : Oracle)
    (fields : list (jsstring * JsVal)) :
  own fields (lit "text") = None \/ own fields (lit "target") = None ->
  handle env o (JObj fields) =
  ([], Val {| status := 400;
              payload := JObj [(lit "error",
                                JStr (lit "Missing text or target"))] |}).
Proof.
  intros H. apply handle_rejected. apply orb_true_iff.
  destruct H as [H|H]; [left|right].
  - now rewrite (own_none_undefined fields (lit "text") eq_refl H).
  - now rewrite (own_none_undefined fields (lit "target") eq_refl H).
Qed.

Lemma request_without_text_rejected :
  own Examples.no_text (lit "text") = None
  /\ handle Examples.env_with_key Examples.says_hello (JObj Examples.no_text)
     = ([], Val {| status := 400;
                   payload := JObj [(lit "error",
                                     JStr (lit "Missing text or target"))] |}).
Proof.
  split; [reflexivity|].
  apply missing_field_rejected. left. reflexivity.
Defined.

(** C9.  Validation tests falsiness, not presence: the request is answered
    with the 400 reply of a missing field, without any provider call,
    exactly when [text] or [target] is falsy (absent, [""], [0], [null],
    [false]). *)
Theorem falsy_field_rejected (env : ProcessEnv) (o : Oracle)
    (fields : list (jsstring * JsVal)) :
  handle env o (JObj fields) = ([], Val missing_reply)
  <-> falsy (object_get fields (lit "text"))
      || falsy (object_get fields (lit "target")) = true.
Proof.
  split; [|apply handle_rejected].
  destruct (falsy _ || falsy _) eqn:Hvalid; [reflexivity|].
  destruct (handle_pipeline env o fields Hvalid)
    as [(e & _ & ->)|(pre & o' & rt & _ & ->)].
  { now intros [= He]. }
  pose proof (wp_run _ _ (pipeline_calls
    (object_get fields (lit "target")) (object_get fields (lit "source"))
    rt) o' 0%nat) as (_ & _ & Hst).
  destruct (snd (run o' 0 _)) as [rp|e]; cbn [reply_of].
  - destruct (Hst rp eq_refl) as [Hst' _]. intros [= _ ->]. discriminate.
  - now intros [= _ He].
Qed.

Lemma empty_text_rejected :
  falsy (object_get Examples.empty_text (lit "text")) = true
  /\ handle Examples.env_with_key Examples.says_hello
       (JObj Examples.empty_text)
     = ([], Val missing_reply).
Proof.
  split; [reflexivity|].
  apply falsy_field_rejected. reflexivity.
Defined.

(** ** Refinement *)

Lemma calls_gemini_refine_false env fields :
  own fields (lit "refine") = Some (JBool false) ->
  calls_gemini env fields = false.
Proof.
  intros H. unfold calls_gemini, gemini_request.
  rewrite (own_object_get _ _ _ H).
  cbn [is_not_false]. now rewrite andb_false_r.
Qed.

Lemma calls_gemini_without_key env fields :
  truthy (GOOGLE_GEMINI_KEY env) = false -> calls_gemini env fields = false.
Proof.
  intros H. unfold calls_gemini, gemini_request. rewrite H.
  now rewrite andb_false_r.
Qed.

(** C1.  When the body has [refine: false], no call is made to the
    refinement provider; every call that is made goes to the translation
    provider with the original [text], URI-encoded, as its [q] parameter;
    and a request answered with status 200 has made the translation
    call. *)
Theorem refine_false_forwards_original_text (env : ProcessEnv) (o : Oracle)
    (fields : list (jsstring * JsVal)) :
  own fields (lit "refine") = Some (JBool false) ->
  let text := object_get fields (lit "text") in
  let t := fst (handle env o (JObj fields)) in
  let r := snd (handle env o (JObj fields)) in
  Forall (fun ev => event_purpose ev <> Refine) t
  /\ Forall (carries text) t
  /\ (forall rp, r = Val rp -> status rp = 200 ->
      Exists (fun ev => event_purpose ev = Translate) t).
Proof.
  intros H. apply handle_unrefined. now apply calls_gemini_refine_false.
Qed.

Lemma hola_scenario_forwards_text :
  own Examples.hola (lit "refine") = Some (JBool false)
  /\ handle Examples.env_with_key Examples.says_hello (JObj Examples.hola)
     = ([(translate_call (lit "hola") (lit "es") (lit "en"),
          Examples.ok_json (Examples.translated (lit "hello")))],
        Val (translation_reply (JStr (lit "hello"))))
  /\ Forall (carries (JStr (lit "hola")))
       (fst (handle Examples.env_with_key Examples.says_hello
               (JObj Examples.hola))).
Proof.
  split; [reflexivity|]. split; [reflexivity|].
  apply (refine_false_forwards_original_text
           Examples.env_with_key Examples.says_hello Examples.hola).
  reflexivity.
Defined.

(** C8.  Without a Gemini credential (the variable unset or empty) the
    refinement adapter prints one line and returns its input text: it
    makes no call.  Hence no request, whatever its [refine] flag, reaches
    the refinement provider. *)
Theorem no_credential_returns_text (env : ProcessEnv) (text language : JsVal) :
  truthy (GOOGLE_GEMINI_KEY env) = false ->
  refineWithGemini env text language
  = Log {| log_level := Stdout;
           log_args :=
             [LStr (lit "No Gemini key provided, skipping refinement")] |}
        (Ret text)
  /\ (forall o n, run o n (refineWithGemini env text language)
                  = ([], Val text))
  /\ (forall o fields,
        Forall (fun ev => event_purpose ev <> Refine)
          (fst (handle env o (JObj fields)))).
Proof.
  intros Hkey.
  assert (refineWithGemini env text language
          = Log {| log_level := Stdout;
                   log_args :=
                     [LStr (lit "No Gemini key provided, skipping refinement")] |}
                (Ret text)) as E.
  { unfold refineWithGemini, falsy. now rewrite Hkey. }
  split; [exact E|]. split.
  - intros o n. now rewrite E.
  - intros o fields.
    apply (handle_unrefined env o fields).
    now apply calls_gemini_without_key.
Qed.

Lemma unset_key_skips_gemini :
  truthy (GOOGLE_GEMINI_KEY Examples.env_without_key) = false
  /\ refineWithGemini Examples.env_without_key (JStr (lit " hola "))
       (JStr (lit "Spanish"))
     = Log {| log_level := Stdout;
              log_args :=
                [LStr (lit "No Gemini key provided, skipping refinement")] |}
           (Ret (JStr (lit " hola "))).
Proof.
  split; [reflexivity|].
  apply (no_credential_returns_text Examples.env_without_key
           (JStr (lit " hola ")) (JStr (lit "Spanish"))).
  reflexivity.
Defined.

(** ** Translation and detection *)

(** C3, as the code has it.  If the translation call was answered with a
    JSON value other than [null] that has no [responseData.translatedText]
    field, the request is answered with status 200 and
    [{translation: "Error: no translation"}]. *)
Theorem missing_translation_yields_marker (env : ProcessEnv) (o : Oracle)
    (fields : list (jsstring * JsVal))
    (c : Call) (response : FetchResponse) (data : JsVal) :
  In (c, Resolved response) (fst (handle env o (JObj fields))) ->
  call_purpose c = Translate ->
  resp_json response = Val data ->
  nullish data = false ->
  has_field (field_of data (lit "responseData")) (lit "translatedText") = false ->
  snd (handle env o (JObj fields)) =
  Val {| status := 200;
         payload := JObj [(lit "translation",
                           JStr (lit "Error: no translation"))] |}.
Proof.
  intros Hin Hc Hjson Hnn Hlacks.
  destruct (falsy (object_get fields (lit "text"))
            || falsy (object_get fields (lit "target"))) eqn:Hvalid.
  - rewrite handle_rejected in Hin by assumption. destruct Hin.
  - destruct (handle_pipeline env o fields Hvalid)
      as [(e & _ & He)|(pre & o' & refinedText & Hpre & He)];
      rewrite He in Hin |- *; cbn [fst snd] in *; [destruct Hin|].
    apply in_after_refine in Hin; [|assumption..].
    pose proof (wp_run _ _ (pipeline_marker
      (object_get fields (lit "target")) (object_get fields (lit "source"))
      refinedText) o' 0%nat) as Hm.
    cbv beta in Hm. now rewrite (Hm c response data Hin Hc Hjson Hnn Hlacks).
Qed.

Lemma empty_translation_response_marked :
  has_field (field_of (JObj []) (lit "responseData")) (lit "translatedText")
  = false
  /\ handle Examples.env_with_key Examples.says_nothing (JObj Examples.hola)
     = ([(translate_call (lit "hola") (lit "es") (lit "en"),
          Examples.ok_json (JObj []))],
        Val (translation_reply (JStr (lit "Error: no translation")))).
Proof.
  split; [reflexivity|].
  apply injective_projections; [reflexivity|].
  apply (missing_translation_yields_marker
           Examples.env_with_key Examples.says_nothing Examples.hola
           (translate_call (lit "hola") (lit "es") (lit "en"))
           {| resp_ok := true; resp_status := 200;
              resp_text := Val []; resp_json := Val (JObj []) |}
           (JObj [])).
  - left. reflexivity.
  - reflexivity.
  - reflexivity.
  - reflexivity.
  - reflexivity.
Defined.

(** C3 as stated fails: the JSON response [null] has no
    [responseData.translatedText], and reading [responseData] from it
    throws, so the request is answered with status 500. *)
Lemma null_translation_response_fails :
  has_field (field_of JNull (lit "responseData")) (lit "translatedText")
  = false
  /\ handle Examples.env_with_key Examples.says_null (JObj Examples.hola)
     = ([(translate_call (lit "hola") (lit "es") (lit "en"),
          Examples.ok_json JNull)],
        Val (failure_reply (type_error_reading (lit "responseData") JNull)))
  /\ status (failure_reply (type_error_reading (lit "responseData") JNull))
     = 500
  /\ failure_reply (type_error_reading (lit "responseData") JNull)
     <> translation_reply (JStr (lit "Error: no translation")).
Proof.
  repeat split; try reflexivity. discriminate.
Qed.





(** ** Failure of the refinement step *)

Lemma refined_of_failed text out :
  refinement_failed out = true -> refined_of text out = text.
Proof.
  destruct out as [e|response]; [reflexivity|]. simpl.
  destruct (resp_ok response); [|reflexivity].
  destruct (resp_json response); [discriminate|reflexivity].
Qed.

Lemma calls_gemini_off env fields :
  calls_gemini (refinement_off env) fields = false.
Proof. reflexivity. Qed.

(** C6.  When the call to the refinement provider fails, the rest of the
    request is the request served without refinement: the same later
    calls, all carrying the original [text], and the same reply. *)
Theorem refinement_failure_not_fatal (env : ProcessEnv) (o : Oracle)
    (fields : list (jsstring * JsVal))
    (c : Call) (out : FetchOutcome) (tr : Trace) (r : Exc Reply) :
  handle env o (JObj fields) = ((c, out) :: tr, r) ->
  call_purpose c = Refine ->
  refinement_failed out = true ->
  handle (refinement_off env) (after_first o) (JObj fields) = (tr, r)
  /\ Forall (carries (object_get fields (lit "text"))) tr
  /\ Forall (fun ev => event_purpose ev <> Refine) tr.
Proof.
  intros Hrun Hc Hfail.
  destruct (falsy (object_get fields (lit "text"))
            || falsy (object_get fields (lit "target"))) eqn:Hvalid.
  { rewrite handle_rejected in Hrun by assumption. discriminate. }
  assert (handle (refinement_off env) (after_first o) (JObj fields) = (tr, r))
    as Hoff.
  { rewrite handle_valid in Hrun |- * by assumption.
    rewrite (calls_gemini_request _ _ (calls_gemini_off env fields)).
    destruct (translating_line _ _) as [line|e]; [|discriminate].
    destruct (gemini_request env fields) as [c0|]; cbv zeta in Hrun.
    - destruct (run (after_first o) 0 _) as [t' r'] eqn:Hrest in Hrun.
      injection Hrun as <- <- <- <-.
      rewrite refined_of_failed in Hrest by assumption.
      now rewrite Hrest.
    - pose proof (wp_run _ _ (pipeline_calls
        (object_get fields (lit "target")) (object_get fields (lit "source"))
        (object_get fields (lit "text"))) o 0%nat) as (Hnr & _).
      destruct (run o 0 _) as [t' r']. injection Hrun as -> <-.
      cbn [fst] in Hnr. inversion Hnr as [|? ? Hhd _].
      now elim Hhd. }
  split; [exact Hoff|].
  pose proof (handle_unrefined (refinement_off env) (after_first o) fields
                (calls_gemini_off env fields)) as (Hnr & Hcar & _).
  rewrite Hoff in Hnr, Hcar. now split.
Qed.

Lemma gemini_down_still_translates :
  refinement_failed Examples.server_error = true
  /\ handle (refinement_off Examples.env_with_key)
       (after_first Examples.gemini_down) (JObj Examples.hola_plain)
     = ([(detect_call (lit "hola"),
          Examples.ok_json (Examples.translated (lit "hello")));
         (translate_call (lit "hola") (lit "en") (lit "en"),
          Examples.ok_json (Examples.translated (lit "hello")))],
        Val (translation_reply (JStr (lit "hello")))).
Proof.
  split; [reflexivity|].
  apply (refinement_failure_not_fatal Examples.env_with_key
           Examples.gemini_down Examples.hola_plain
           (gemini_call Examples.env_with_key Examples.hola_prompt)
           Examples.server_error).
  - reflexivity.
  - reflexivity.
  - reflexivity.
Defined.

(** ** Whether refinement is requested *)

Lemma is_not_false_iff v : is_not_false v = false <-> v = JBool false.
Proof.
  split.
  - destruct v as [| |[|]| | | | | |]; simpl; congruence.
  - now intros ->.
Qed.

Lemma gemini_is_not_none env :
  is_string (AI_PROVIDER env) (lit "gemini") = true ->
  is_string (AI_PROVIDER env) (lit "none") = false.
Proof.
  unfold is_string. destruct (AI_PROVIDER env) as [| | | |s| | | |]; try discriminate.
  intros H%jsstring_eqb_eq. now subst s.
Qed.

Lemma prints_console {A} (m : Prog A) (P : LogLine -> Prop) o n :
  prints m P -> Forall P (console_of o n m).
Proof.
  revert n. induction m as [a|e|c k IH|l k IH]; intros n; simpl.
  - constructor.
  - constructor.
  - intros H. apply IH, H.
  - intros [Hl Hk]. constructor; [exact Hl|]. now apply IH.
Qed.

Lemma quiet_console {A} (m : Prog A) o n :
  prints m (fun l => is_refining_line l = false) ->
  existsb is_refining_line (console_of o n m) = false.
Proof.
  intros H%(prints_console _ _ o n).
  induction H as [|l ls Hl _ IH]; [reflexivity|].
  cbn [existsb]. now rewrite Hl, IH.
Qed.

Lemma detected_line_quiet v line :
  detected_line v = Val line ->
  is_refining_line {| log_level := Stdout; log_args := [LStr line] |} = false.
Proof.
  unfold detected_line. destruct (ToString v); [|discriminate].
  intros [= <-]. reflexivity.
Qed.

Lemma client_source_line_quiet v w line :
  client_source_line v w = Val line ->
  is_refining_line {| log_level := Stdout; log_args := [LStr line] |} = false.
Proof.
  unfold client_source_line.
  destruct (ToString v); [|discriminate].
  destruct (ToString w); [|discriminate].
  intros [= <-]. reflexivity.
Qed.

Lemma translating_line_quiet v w line :
  translating_line v w = Val line ->
  is_refining_line {| log_level := Stdout; log_args := [LStr line] |} = false.
Proof.
  unfold translating_line.
  destruct (ToString v); [|discriminate].
  destruct (ToString w); [|discriminate].
  intros [= <-]. reflexivity.
Qed.

Ltac prints_step :=
  lazymatch goal with
  | |- forall out : FetchOutcome, _ => intros [?e|?response]
  | |- _ /\ _ =>
      split; [now eauto using detected_line_quiet, client_source_line_quiet|]
  | |- prints ?m _ => let x := stuck_on m in destruct x eqn:?
  end;
  cbn [prints bind lift fetch catch console_log console_error].

Lemma pipeline_quiet target source rt :
  prints (translate_pipeline target source rt)
    (fun l => is_refining_line l = false).
Proof.
  unfold translate_pipeline, resolve_source.
  cbn [prints bind lift fetch catch console_log console_error].
  repeat prints_step.
  all: exact I.
Qed.

Lemma refine_step_console env fields o n :
  existsb is_refining_line
    (console_of o n
       (refine_step env (JObj fields) (object_get fields (lit "text"))
          (object_get fields (lit "source")))) =
  negb (is_string (AI_PROVIDER env) (lit "none"))
  && is_not_false (object_get fields (lit "refine")).
Proof.
  unfold refine_step, refineRequested.
  cbn [get exc_bind lift bind].
  destruct (negb (is_string (AI_PROVIDER env) (lit "none"))); cbn [andb];
    [|reflexivity].
  destruct (is_not_false _); [|reflexivity].
  rewrite console_catch, console_bind. unfold refineOriginalText.
  unfold refining_line. destruct (AI_PROVIDER_string env) as (c & s & ->).
  cbn [ToString exc_bind lift bind console_log console_of app existsb].
  reflexivity.
Qed.

Lemma route_console env o fields :
  let text := object_get fields (lit "text") in
  let target := object_get fields (lit "target") in
  existsb is_refining_line (console env o (JObj fields)) =
  negb (falsy text || falsy target)
  && match translating_line text target with
     | Val _ => true
     | Err _ => false
     end
  && (negb (is_string (AI_PROVIDER env) (lit "none"))
      && is_not_false (object_get fields (lit "refine"))).
Proof.
  cbv zeta. unfold console, translate_route.
  rewrite console_catch, existsb_app.
  replace (existsb is_refining_line
             match run o 0 (translate_try env (JObj fields)) with
             | (_, Val _) => []
             | (t, Err e) => _
             end) with false
    by now destruct (run o 0 _) as [t [a|e]].
  rewrite orb_false_r. unfold translate_try.
  cbn [destructure nullish get exc_bind lift bind console_log console_of existsb].
  destruct (falsy _ || falsy _); [reflexivity|].
  destruct (translating_line _ _) as [line|e] eqn:Hline;
    cbn [lift bind console_log console_of existsb negb andb]; [|reflexivity].
  rewrite (translating_line_quiet _ _ _ Hline).
  rewrite console_bind, existsb_app, refine_step_console.
  cbn [orb].
  destruct (run o 0 (refine_step _ _ _ _)) as [t [a|e]].
  - now rewrite quiet_console, orb_false_r by apply pipeline_quiet.
  - now rewrite orb_false_r.
Qed.

(** C10.  Refinement is skipped only when [req.body.refine] is exactly
    [false].  [refineRequested] is false for that value and no other.  A
    request enters [refineOriginalText], which prints its first line,
    exactly when it is valid, the line of its text and target can be
    printed, [refine] is not [false] and the provider is not ["none"].
    With [refine] equal to [false] no call goes to the refinement
    provider.  With any other value (absent, [null], [0], ["false"], ...)
    a valid request under the gemini provider with a key, whose prompt
    can be built, makes the Gemini call first. *)
Theorem refine_skipped_only_on_false (env : ProcessEnv) (o : Oracle)
    (fields : list (jsstring * JsVal)) :
  let text := object_get fields (lit "text") in
  let target := object_get fields (lit "target") in
  let source := object_get fields (lit "source") in
  let refine := object_get fields (lit "refine") in
  (refineRequested (JObj fields) = Val false <-> refine = JBool false)
  /\ (existsb is_refining_line (console env o (JObj fields)) = true
      <-> falsy text || falsy target = false
          /\ (exists line, translating_line text target = Val line)
          /\ refine <> JBool false
          /\ is_string (AI_PROVIDER env) (lit "none") = false)
  /\ (refine = JBool false ->
      Forall (fun ev => event_purpose ev <> Refine)
        (fst (handle env o (JObj fields))))
  /\ (refine <> JBool false ->
      is_string (AI_PROVIDER env) (lit "gemini") = true ->
      truthy (GOOGLE_GEMINI_KEY env) = true ->
      falsy text || falsy target = false ->
      forall line prompt,
        translating_line text target = Val line ->
        gemini_prompt text (js_or source (JStr (lit "English"))) = Val prompt ->
        exists tr,
          fst (handle env o (JObj fields))
          = (gemini_call env prompt, o 0%nat (gemini_call env prompt)) :: tr).
Proof.
  cbv zeta. split; [|split; [|split]].
  - unfold refineRequested. cbn [get exc_bind].
    rewrite <- is_not_false_iff. split; congruence.
  - rewrite route_console.
    rewrite <- is_not_false_iff.
    destruct (falsy _ || falsy _); cbn [negb andb].
    { split; [discriminate|]. now intros [? _]. }
    destruct (translating_line _ _) as [line|e]; cbn [andb].
    2:{ split; [discriminate|]. now intros (_ & [line ?] & _). }
    destruct (is_string (AI_PROVIDER env) (lit "none")); cbn [negb andb].
    { split; [discriminate|]. now intros (_ & _ & _ & ?). }
    destruct (is_not_false _).
    + split; [|reflexivity]. intros _. repeat split; eauto. discriminate.
    + split; [discriminate|]. now intros (_ & _ & ? & _).
  - intros Hrefine.
    apply (handle_unrefined env o fields).
    unfold calls_gemini, gemini_request. rewrite Hrefine.
    cbn [is_not_false]. now rewrite andb_false_r.
  - intros Hrefine Hprovider Hkey Hvalid line prompt Hline Hprompt.
    rewrite handle_valid by assumption. rewrite Hline.
    unfold gemini_request.
    rewrite (gemini_is_not_none env Hprovider), Hprovider, Hkey, Hprompt.
    destruct (is_not_false _) eqn:Hnf;
      [|now apply is_not_false_iff in Hnf].
    cbn [negb andb]. cbv zeta. destruct (run _ _ _) as [t r].
    now exists t.
Qed.

Lemma absent_refine_calls_gemini :
  object_get Examples.hola_plain (lit "refine") <> JBool false
  /\ exists tr,
       fst (handle Examples.env_with_key Examples.gemini_down
              (JObj Examples.hola_plain))
       = (gemini_call Examples.env_with_key Examples.hola_prompt,
          Examples.server_error) :: tr.
Proof.
  split; [discriminate|].
  destruct (refine_skipped_only_on_false Examples.env_with_key
              Examples.gemini_down Examples.hola_plain)
    as (_ & _ & _ & Hcalls).
  apply (Hcalls ltac:(discriminate) eq_refl eq_refl eq_refl
           (lit "Translating " ++ dquote ++ lit "hola" ++ dquote
            ++ lit " to " ++ lit "English")
           Examples.hola_prompt eq_refl eq_refl).
Defined.

(** The values of [refine] named in C10, [0], [null], ["false"] and the
    absent field, all request refinement. *)
Lemma refine_values_requesting_refinement :
  Forall (fun refine => is_not_false refine = true)
    [JUndefined; JNull; JNum (integer 0); JStr (lit "false"); JStr [];
     JBool true].
Proof. repeat constructor. Qed.

(** ** The fall-back of the Gemini adapter *)

(** C4, as the code has it.  When the refinement provider answers with a
    success status and a JSON body, not [null], in which
    [candidates[0].content.parts[0].text] is undefined, the adapter
    returns the input text trimmed of leading and trailing white space
    if it is a string, and unchanged if it is not. *)
Theorem unexpected_shape_returns_trimmed_text (env : ProcessEnv)
    (text language : JsVal) (prompt : jsstring) (o : Oracle) (n : nat)
    (response : FetchResponse) (data : JsVal) :
  truthy (GOOGLE_GEMINI_KEY env) = true ->
  gemini_prompt text language = Val prompt ->
  o n (gemini_call env prompt) = Resolved response ->
  resp_ok response = true ->
  resp_json response = Val data ->
  first_candidate_text data = Val JUndefined ->
  snd (run o n (refineWithGemini env text language))
  = Val (trimmed_text text).
Proof.
  intros Hkey Hprompt Hout Hok Hjson Hshape.
  rewrite refineWithGemini_run by assumption. rewrite Hprompt.
  cbv zeta. cbn [snd].
  rewrite Hout. cbn [refined_of]. rewrite Hok, Hjson, Hshape.
  unfold js_or. cbn [truthy].
  now destruct text.
Qed.

Lemma empty_gemini_body_keeps_hola :
  first_candidate_text (JObj []) = Val JUndefined
  /\ snd (run Examples.says_nothing 0
            (refineWithGemini Examples.env_with_key (JStr (lit "hola"))
               (JStr (lit "Spanish"))))
     = Val (JStr (lit "hola")).
Proof.
  split; [reflexivity|].
  apply (unexpected_shape_returns_trimmed_text Examples.env_with_key
           (JStr (lit "hola")) (JStr (lit "Spanish"))
           (Examples.prompt_of (JStr (lit "hola")) (JStr (lit "Spanish")))
           Examples.says_nothing 0
           {| resp_ok := true; resp_status := 200;
              resp_text := Val []; resp_json := Val (JObj []) |}
           (JObj [])); reflexivity.
Defined.

(** C4 as stated fails: on a success response without candidates the
    adapter returns [" hola "] without its surrounding spaces. *)
Lemma fallback_text_is_trimmed :
  let text := JStr (lit " hola ") in
  let call := gemini_call Examples.env_with_key
                (Examples.prompt_of text (JStr (lit "Spanish"))) in
  gemini_prompt text (JStr (lit "Spanish"))
  = Val (Examples.prompt_of text (JStr (lit "Spanish")))
  /\ Examples.says_nothing 0%nat call = Examples.ok_json (JObj [])
  /\ first_candidate_text (JObj []) = Val JUndefined
  /\ run Examples.says_nothing 0
       (refineWithGemini Examples.env_with_key text (JStr (lit "Spanish")))
     = ([(call, Examples.ok_json (JObj []))], Val (JStr (lit "hola")))
  /\ JStr (lit "hola") <> text.
Proof.
  cbv zeta. repeat split; try reflexivity. discriminate.
Qed.

(** ** Language codes *)

(** The eight entries of the table, for the target and for a source given
    by the client. *)
Lemma languages_table_exact :
  Forall (fun kv =>
            targetLang (JStr (lit (fst kv))) = Val (JStr (lit (snd kv)))
            /\ client_source (JStr (lit (fst kv)))
               = Val (JStr (lit (snd kv))))
    [("Spanish", "es"); ("French", "fr"); ("Mandarin", "zh-CN");
     ("German", "de"); ("Portuguese", "pt"); ("Italian", "it");
     ("Japanese", "ja"); ("English", "en")]%string.
Proof. repeat constructor. Qed.

(** A name that is neither in the table nor a property of
    [Object.prototype] resolves to itself. *)
Lemma unlisted_name_passes_through (name : jsstring) :
  own languages name = None ->
  inherited name = false ->
  targetLang (JStr name) = Val (JStr name)
  /\ (name <> [] -> client_source (JStr name) = Val (JStr name)).
Proof.
  intros Hown Hinh.
  assert (resolve_language (JStr name) = Val (JStr name)) as E.
  { unfold resolve_language. cbn [ToString exc_bind].
    now rewrite (own_none_undefined _ _ Hinh Hown). }
  split; [exact E|].
  intros Hne. unfold client_source. cbn [truthy].
  destruct name; [contradiction|exact E].
Qed.

(** C5 fails on the code for the names a plain object inherits:
    [constructor] is not a key of the table, yet [languages["constructor"]]
    is the function [Object], so the target does not pass through unchanged
    and the translation call carries the printed function as its target
    code. *)
Theorem inherited_name_not_passed_through :
  own languages (lit "constructor") = None
  /\ targetLang (JStr (lit "constructor")) = Val (JNativeFn (lit "Object"))
  /\ targetLang (JStr (lit "constructor")) <> Val (JStr (lit "constructor"))
  /\ map (fun ev => call_url (fst ev))
       (fst (handle Examples.env_with_key Examples.says_hello
               (JObj Examples.to_constructor)))
     = [lit "https://api.mymemory.translated.net/get?q=hola&langpair=es|function Object() { [native code] }"].
Proof.
  repeat split; try reflexivity. discriminate.
Qed.

(** * Further properties of the server *)

(** ** The status endpoints *)

(** X2.  [/ai-status] never reports an empty provider: an unset or empty
    [AI_PROVIDER] is reported as ["gemini"].  [geminiEnabled] is [false]
    exactly when [GOOGLE_GEMINI_KEY] is unset or empty.  [/ping] reports
    the same two fields, with [ok: true]. *)
Theorem status_endpoints_report_configuration (env : ProcessEnv) :
  let provider := field_of (payload (aiStatusHandler env)) (lit "provider") in
  let enabled :=
    field_of (payload (aiStatusHandler env)) (lit "geminiEnabled") in
  (exists c s, provider = JStr (c :: s))
  /\ (env_AI_PROVIDER env = None \/ env_AI_PROVIDER env = Some [] ->
      provider = JStr (lit "gemini"))
  /\ (enabled = JBool false <->
      env_GOOGLE_GEMINI_KEY env = None \/ env_GOOGLE_GEMINI_KEY env = Some [])
  /\ field_of (payload (ping env)) (lit "provider") = provider
  /\ field_of (payload (ping env)) (lit "geminiEnabled") = enabled
  /\ field_of (payload (ping env)) (lit "ok") = JBool true.
Proof.
  cbv zeta.
  change (field_of (payload (aiStatusHandler env)) (lit "provider"))
    with (AI_PROVIDER env).
  change (field_of (payload (aiStatusHandler env)) (lit "geminiEnabled"))
    with (JBool (truthy (GOOGLE_GEMINI_KEY env))).
  split; [|split; [|split; [|repeat split]]].
  - unfold AI_PROVIDER, js_or.
    destruct (env_AI_PROVIDER env) as [[|c s]|]; cbn [env_var truthy]; eauto.
    all: vm_compute; eauto.
  - intros [H|H]; unfold AI_PROVIDER; rewrite H; reflexivity.
  - unfold GOOGLE_GEMINI_KEY.
    destruct (env_GOOGLE_GEMINI_KEY env) as [[|c s]|]; cbn [env_var truthy].
    + split; auto.
    + split; [discriminate|]. intros [H|H]; discriminate.
    + split; auto.
Qed.

Lemma unset_provider_reported_as_gemini :
  env_AI_PROVIDER Examples.env_without_key = None
  /\ field_of (payload (aiStatusHandler Examples.env_without_key))
       (lit "provider")
     = JStr (lit "gemini").
Proof.
  split; [reflexivity|].
  destruct (status_endpoints_report_configuration Examples.env_without_key)
    as (_ & Hdefault & _).
  apply Hdefault. left. reflexivity.
Defined.

Lemma translating_line_printable text target :
  match translating_line text target with
  | Val _ => true
  | Err _ => false
  end = printable text && printable target.
Proof.
  unfold translating_line, printable.
  destruct (ToString text); cbn [exc_bind andb]; [|reflexivity].
  now destruct (ToString target).
Qed.

Lemma gemini_prompt_printable text language :
  match gemini_prompt text language with
  | Val _ => true
  | Err _ => false
  end = printable language && printable text.
Proof.
  unfold gemini_prompt, printable.
  destruct (ToString language); cbn [exc_bind andb]; [|reflexivity].
  now destruct (ToString text).
Qed.

(** A valid request calls Gemini when line 131 can be printed and
    [gemini_request] lets it through. *)
Lemma refine_event_iff env o fields :
  falsy (object_get fields (lit "text"))
  || falsy (object_get fields (lit "target")) = false ->
  Exists (fun ev => event_purpose ev = Refine)
    (fst (handle env o (JObj fields)))
  <-> printable (object_get fields (lit "text"))
      && printable (object_get fields (lit "target"))
      && calls_gemini env fields = true.
Proof.
  intros Hvalid. rewrite handle_valid by assumption.
  rewrite <- translating_line_printable. unfold calls_gemini.
  destruct (translating_line _ _) as [line|e]; cbn [andb fst].
  2:{ split; [|discriminate]. intros H. inversion H. }
  destruct (gemini_request env fields) as [c|] eqn:Hreq; cbv zeta.
  - destruct (run _ _ _) as [t r]. cbn [fst]. split; [reflexivity|].
    intros _. apply Exists_cons_hd.
    exact (gemini_request_purpose env fields c Hreq).
  - pose proof (wp_run _ _ (pipeline_calls
      (object_get fields (lit "target")) (object_get fields (lit "source"))
      (object_get fields (lit "text"))) o 0%nat) as (Hnr & _).
    destruct (run o 0 _) as [t r]. cbn [fst] in *. split; [|discriminate].
    intros Hex. apply Exists_exists in Hex as (ev & Hin & Hev).
    rewrite Forall_forall in Hnr. now apply Hnr in Hin.
Qed.

(** X1.  What [/ai-status] reports decides whether Gemini is called: a
    valid request whose [refine] is not [false] calls the refinement
    provider exactly when the reported provider is ["gemini"],
    [geminiEnabled] is [true], and [text], [target] and the language
    ([source], or ["English"] when [source] is falsy) can be converted to
    strings. *)
Theorem gemini_called_as_status_reports env o fields :
  let text := object_get fields (lit "text") in
  let target := object_get fields (lit "target") in
  let source := object_get fields (lit "source") in
  falsy text || falsy target = false ->
  object_get fields (lit "refine") <> JBool false ->
  (Exists (fun ev => event_purpose ev = Refine)
     (fst (handle env o (JObj fields)))
   <-> field_of (payload (aiStatusHandler env)) (lit "provider")
       = JStr (lit "gemini")
       /\ field_of (payload (aiStatusHandler env)) (lit "geminiEnabled")
          = JBool true
       /\ printable text = true
       /\ printable target = true
       /\ printable (js_or source (JStr (lit "English"))) = true).
Proof.
  cbv zeta. intros Hvalid Hrefine.
  change (field_of (payload (aiStatusHandler env)) (lit "provider"))
    with (AI_PROVIDER env).
  change (field_of (payload (aiStatusHandler env)) (lit "geminiEnabled"))
    with (JBool (truthy (GOOGLE_GEMINI_KEY env))).
  rewrite (refine_event_iff env o fields Hvalid).
  unfold calls_gemini, gemini_request.
  destruct (is_not_false _) eqn:Hnf; [|now apply is_not_false_iff in Hnf].
  pose proof (gemini_prompt_printable (object_get fields (lit "text"))
                (js_or (object_get fields (lit "source"))
                   (JStr (lit "English")))) as Hprompt.
  split.
  - intros H. apply andb_true_iff in H as [H Hcall].
    apply andb_true_iff in H as [Htext Htarget].
    destruct (is_string (AI_PROVIDER env) (lit "gemini")) eqn:Hp;
      [|now rewrite andb_false_r in Hcall].
    destruct (truthy (GOOGLE_GEMINI_KEY env));
      [|now rewrite andb_false_r in Hcall].
    rewrite (gemini_is_not_none env Hp) in Hcall. cbn [negb andb] in Hcall.
    repeat split; try assumption.
    + unfold is_string in Hp.
      destruct (AI_PROVIDER env); try discriminate.
      f_equal. now apply jsstring_eqb_eq.
    + destruct (gemini_prompt _ _); [|discriminate].
      symmetry in Hprompt. now apply andb_true_iff in Hprompt as [? _].
  - intros (Hp & Hk & Htext & Htarget & Hlang).
    rewrite Hp. injection Hk as ->. rewrite Htext, Htarget.
    rewrite Htext, Hlang in Hprompt. cbn [andb] in Hprompt.
    change (is_string (JStr (lit "gemini")) (lit "none")) with false.
    change (is_string (JStr (lit "gemini")) (lit "gemini")) with true.
    cbn [negb andb]. now destruct (gemini_prompt _ _).
Qed.

Lemma status_enabled_request_calls_gemini :
  object_get Examples.hola_plain (lit "refine") <> JBool false
  /\ Exists (fun ev => event_purpose ev = Refine)
       (fst (handle Examples.env_with_key Examples.gemini_down
               (JObj Examples.hola_plain))).
Proof.
  split; [discriminate|].
  apply (gemini_called_as_status_reports Examples.env_with_key
           Examples.gemini_down Examples.hola_plain).
  - reflexivity.
  - discriminate.
  - repeat split; reflexivity.
Defined.

(** ** The handler as a whole *)

(** A body that is not an object with truthy [text] and [target] is
    answered without any call. *)
Lemma handle_cases env o body :
  (fst (handle env o body) = []
   /\ (snd (handle env o body) = Val missing_reply
       \/ exists e, snd (handle env o body) = Val (failure_reply e)))
  \/ exists fields,
       body = JObj fields
       /\ falsy (object_get fields (lit "text"))
          || falsy (object_get fields (lit "target")) = false.
Proof.
  destruct body;
    try (left; split; [reflexivity|];
         (left; reflexivity) || (right; eexists; reflexivity)).
  destruct (falsy (object_get fields (lit "text"))
            || falsy (object_get fields (lit "target"))) eqn:Hvalid.
  - left. rewrite handle_rejected by assumption. split; [reflexivity|now left].
  - right. now exists fields.
Qed.

Lemma pipeline_order target source rt :
  wp (translate_pipeline target source rt) (fun t r =>
    In (purposes t) [[]; [Detect]; [Detect; Translate]; [Translate]]).
Proof.
  unfold translate_pipeline, resolve_source. wp_start.
  all: cbn; tauto.
Qed.

(** X4.  A request makes at most three provider calls, each at most once
    and in the order refinement, detection, translation: nothing is
    retried, and nothing follows the translation call. *)
Theorem at_most_three_calls_in_order env o body :
  In (purposes (fst (handle env o body)))
     [[]; [Detect]; [Detect; Translate]; [Translate];
      [Refine]; [Refine; Detect]; [Refine; Detect; Translate];
      [Refine; Translate]].
Proof.
  destruct (handle_cases env o body) as [[-> _]|(fields & -> & Hvalid)].
  { now left. }
  rewrite handle_valid by assumption.
  destruct (translating_line _ _) as [line|e]; [|now left].
  destruct (gemini_request env fields) as [c|] eqn:Hreq; cbv zeta.
  - destruct (run _ _ _) as [t r] eqn:Hrun.
    match type of Hrun with
    | run ?o' _ (translate_pipeline ?a ?b ?rt) = _ =>
        pose proof (wp_run _ _ (pipeline_order a b rt) o' 0%nat) as H
    end.
    rewrite Hrun in H. cbn [fst snd] in *.
    change (purposes (?e :: t)) with (event_purpose e :: purposes t).
    unfold event_purpose at 1. cbn [fst].
    rewrite (gemini_request_purpose env fields c Hreq).
    cbn in H |- *. intuition congruence.
  - destruct (run _ _ _) as [t r] eqn:Hrun.
    match type of Hrun with
    | run ?o' _ (translate_pipeline ?a ?b ?rt) = _ =>
        pose proof (wp_run _ _ (pipeline_order a b rt) o' 0%nat) as H
    end.
    rewrite Hrun in H. cbn [fst snd] in *.
    cbn in H |- *. intuition congruence.
Qed.

(** X3.  The handler never lets an exception escape: whatever the body
    and whatever the providers answer, it replies, with status 200, 400 or
    500; status 400 is the reply to a missing field and comes without any
    provider call. *)
Theorem handler_always_replies env o body :
  exists rp,
    snd (handle env o body) = Val rp
    /\ (status rp = 200 \/ status rp = 400 \/ status rp = 500)
    /\ (status rp = 400 -> rp = missing_reply /\ fst (handle env o body) = []).
Proof.
  destruct (handle_cases env o body)
    as [[Ht [Hr|[e Hr]]]|(fields & -> & Hvalid)].
  - exists missing_reply. rewrite Hr.
    split; [reflexivity|]. split; [now right; left|]. now intros _.
  - exists (failure_reply e). rewrite Hr.
    split; [reflexivity|]. split; [now right; right|]. discriminate.
  - destruct (handle_pipeline env o fields Hvalid)
      as [(e & _ & He)|(pre & o' & rt & _ & He)]; rewrite He; cbn [fst snd].
    { exists (failure_reply e).
      split; [reflexivity|]. split; [now right; right|]. discriminate. }
    pose proof (wp_run _ _ (pipeline_calls
      (object_get fields (lit "target")) (object_get fields (lit "source"))
      rt) o' 0%nat) as (_ & _ & Hst).
    destruct (snd (run o' 0 _)) as [rp|e]; cbn [reply_of].
    + exists rp. destruct (Hst rp eq_refl) as [H200 _].
      split; [reflexivity|]. split; [now left|].
      intros H400. rewrite H200 in H400. discriminate.
    + exists (failure_reply e).
      split; [reflexivity|]. split; [now right; right|]. discriminate.
Qed.

(** X14.  A body that is not an object (an array, a scalar) has no [text]
    and is answered 400 like an empty object; destructuring [null] or
    [undefined] throws, which is answered 500.  No provider is called. *)
Theorem body_without_fields (env : ProcessEnv) (o : Oracle) (body : JsVal) :
  (forall fields, body <> JObj fields) ->
  fst (handle env o body) = []
  /\ exists rp,
       snd (handle env o body) = Val rp
       /\ status rp = (if nullish body then 500 else 400)
       /\ (nullish body = false -> rp = missing_reply).
Proof.
  intros H. destruct body; try now elim (H fields).
  all: split; [reflexivity|].
  all: eexists; split; [reflexivity|]; split; [reflexivity|].
  all: first [discriminate | intros _; reflexivity].
Qed.

Lemma array_body_rejected :
  (forall fields, JArr [] <> JObj fields)
  /\ fst (handle Examples.env_with_key Examples.says_hello (JArr [])) = [].
Proof.
  split; [discriminate|].
  apply (body_without_fields Examples.env_with_key Examples.says_hello
           (JArr [])).
  discriminate.
Defined.

Lemma pipeline_endpoints target source rt :
  wp (translate_pipeline target source rt) (fun t r =>
    Forall (fun ev =>
              call_method (fst ev) = GET
              /\ call_body (fst ev) = None
              /\ starts_with mymemory_prefix (call_url (fst ev)) = true) t).
Proof.
  unfold translate_pipeline, resolve_source. wp_start.
  all: repeat (apply Forall_cons || apply Forall_nil).
  all: repeat split.
Qed.

(** X15.  Every call goes to one of two endpoints: the refinement call
    is a POST to the Gemini URL, every other call is a GET without body
    whose URL starts with the MyMemory address. *)
Theorem only_two_endpoints env o body :
  Forall (fun ev =>
            match event_purpose ev with
            | Refine =>
                call_method (fst ev) = POST
                /\ call_url (fst ev) = gemini_url env
            | _ =>
                call_method (fst ev) = GET
                /\ call_body (fst ev) = None
                /\ starts_with mymemory_prefix (call_url (fst ev)) = true
            end)
    (fst (handle env o body)).
Proof.
  destruct (handle_cases env o body) as [[-> _]|(fields & -> & Hvalid)].
  { constructor. }
  rewrite handle_valid by assumption.
  destruct (translating_line _ _) as [line|e]; [|constructor].
  pose proof (pipeline_calls (object_get fields (lit "target"))
                (object_get fields (lit "source"))) as Hcalls.
  pose proof (pipeline_endpoints (object_get fields (lit "target"))
                (object_get fields (lit "source"))) as Hend.
  assert (forall rt o' t, t = fst (run o' 0 (translate_pipeline
            (object_get fields (lit "target"))
            (object_get fields (lit "source")) rt)) ->
          Forall (fun ev =>
            match event_purpose ev with
            | Refine => call_method (fst ev) = POST
                        /\ call_url (fst ev) = gemini_url env
            | _ => call_method (fst ev) = GET /\ call_body (fst ev) = None
                   /\ starts_with mymemory_prefix (call_url (fst ev)) = true
            end) t) as Hpipe.
  { intros rt o' t ->.
    pose proof (wp_run _ _ (Hcalls rt) o' 0%nat) as (Hnr & _).
    pose proof (wp_run _ _ (Hend rt) o' 0%nat) as He.
    cbv beta in He. rewrite Forall_forall in *.
    intros ev Hin. specialize (Hnr ev Hin). specialize (He ev Hin).
    now destruct (event_purpose ev). }
  destruct (gemini_request env fields) as [c|] eqn:Hreq; cbv zeta.
  - destruct (run (after_first o) 0 _) as [t r] eqn:Hrun. cbn [fst].
    destruct (gemini_request_call env fields c Hreq) as (prompt & _ & ->).
    constructor; [now split|].
    eapply Hpipe. now rewrite Hrun.
  - destruct (run o 0 _) as [t r] eqn:Hrun. cbn [fst].
    eapply Hpipe. now rewrite Hrun.
Qed.

(** ** Language resolution *)

Lemma truthy_js_or a b : truthy b = true -> truthy (js_or a b) = true.
Proof. unfold js_or. now destruct (truthy a) eqn:E. Qed.

Lemma resolve_language_truthy source code :
  truthy source = true -> resolve_language source = Val code ->
  falsy code = false.
Proof.
  intros H. unfold resolve_language.
  destruct (ToString source); cbn [exc_bind]; [|discriminate].
  intros [= <-]. unfold falsy. now rewrite truthy_js_or.
Qed.

Lemma pipeline_client_source target source rt :
  truthy source = true ->
  wp (translate_pipeline target source rt) (fun t r =>
    Forall (fun ev => event_purpose ev <> Detect) t
    /\ forall c out, In (c, out) t ->
         exists q code tgt source_string target_string,
           encode rt = Val q
           /\ resolve_language source = Val code
           /\ targetLang target = Val tgt
           /\ ToString code = Val source_string
           /\ ToString tgt = Val target_string
           /\ c = translate_call q source_string target_string).
Proof.
  intros Hs. unfold translate_pipeline, resolve_source, client_source.
  rewrite Hs.
  destruct (targetLang target) as [tgt|e] eqn:Htgt; cbn [wp lift bind];
    [|split; [constructor|intros c out []]].
  destruct (resolve_language source) as [code|e] eqn:Hcode;
    cbn [wp lift bind]; [|split; [constructor|intros c out []]].
  rewrite (resolve_language_truthy source code Hs Hcode).
  wp_start.
  all: split.
  all: try (repeat (apply Forall_cons || apply Forall_nil); discriminate).
  all: intros c out Hin.
  all: repeat (destruct Hin as [[= <- <-]|Hin]); try contradiction.
  all: eexists _, _, _, _, _; repeat split; eassumption || reflexivity.
Qed.

(** X5.  A truthy [source] switches detection off: no detection call is
    made, and the translation call pairs the resolved [source] with the
    resolved [target], each converted to a string. *)
Theorem client_source_skips_detection env o fields :
  truthy (object_get fields (lit "source")) = true ->
  let t := fst (handle env o (JObj fields)) in
  Forall (fun ev => event_purpose ev <> Detect) t
  /\ forall c out, In (c, out) t -> call_purpose c = Translate ->
       exists q code tgt source_string target_string,
         resolve_language (object_get fields (lit "source")) = Val code
         /\ targetLang (object_get fields (lit "target")) = Val tgt
         /\ ToString code = Val source_string
         /\ ToString tgt = Val target_string
         /\ c = translate_call q source_string target_string.
Proof.
  intros Hs. cbv zeta.
  destruct (falsy (object_get fields (lit "text"))
            || falsy (object_get fields (lit "target"))) eqn:Hvalid.
  { rewrite handle_rejected by assumption.
    split; [constructor|intros c out []]. }
  destruct (handle_pipeline env o fields Hvalid)
    as [(e & _ & He)|(pre & o' & rt & Hpre & He)]; rewrite He; cbn [fst].
  { split; [constructor|intros c out []]. }
  pose proof (wp_run _ _ (pipeline_client_source
    (object_get fields (lit "target")) (object_get fields (lit "source"))
    rt Hs) o' 0%nat) as [Hnd Hcall].
  split.
  - apply Forall_app. split; [|assumption].
    eapply Forall_impl; [|exact Hpre]. intros ev ->. discriminate.
  - intros c out Hin Hc. apply in_after_refine in Hin; [|assumption..].
    destruct (Hcall c out Hin) as (q & code & tgt & ss & ts & _ & H).
    now exists q, code, tgt, ss, ts.
Qed.

Lemma spanish_source_is_not_detected :
  truthy (object_get Examples.hola (lit "source")) = true
  /\ Forall (fun ev => event_purpose ev <> Detect)
       (fst (handle Examples.env_with_key Examples.says_hello
               (JObj Examples.hola))).
Proof.
  split; [reflexivity|].
  apply (client_source_skips_detection Examples.env_with_key
           Examples.says_hello Examples.hola).
  reflexivity.
Defined.

Lemma table_codes_resolve k x :
  own languages k = Some x -> resolve_language x = Val x.
Proof.
  unfold languages. cbn [map fst snd own].
  repeat (destruct (jsstring_eqb _ k); [intros [= <-]; reflexivity|]).
  discriminate.
Qed.

Lemma native_function_resolves name :
  resolve_language (JNativeFn name) = Val (JNativeFn name).
Proof. reflexivity. Qed.

(** X17.  Language resolution is idempotent: a resolved code resolves to
    itself, so a client may send the provider's code (["es"]) instead of
    the name. *)
Theorem resolve_language_idempotent v :
  exc_bind (resolve_language v) resolve_language = resolve_language v.
Proof.
  unfold resolve_language at 1 3.
  destruct (ToString v) as [key|e] eqn:Hkey; cbn [exc_bind]; [|reflexivity].
  unfold js_or.
  destruct (truthy (object_get languages key)) eqn:Ht.
  - unfold object_get in *.
    destruct (own languages key) as [x|] eqn:Hown.
    + now apply (table_codes_resolve key).
    + unfold object_prototype_get in *.
      destruct (jsstring_eqb _ (lit "constructor")); [reflexivity|].
      destruct (jsstring_eqb _ (lit "__proto__")); [reflexivity|].
      destruct (existsb _ _); [apply native_function_resolves|discriminate].
  - unfold resolve_language. rewrite Hkey. cbn [exc_bind].
    unfold js_or. now rewrite Ht.
Qed.

(** ** Provider failures and answers *)

Lemma pipeline_rejected target source rt :
  wp (translate_pipeline target source rt) (fun t r =>
    forall c e, In (c, Rejected e) t -> r = Err e).
Proof.
  unfold translate_pipeline, resolve_source. wp_start.
  all: intros c0 e0 Hin.
  all: repeat (destruct Hin as [[= <- <-]|Hin]; try discriminate);
    try contradiction.
  all: try reflexivity.
  all: try (injection Hin as <- <-; reflexivity).
Qed.

Lemma in_after_refine' (pre t : Trace) c out :
  Forall (fun ev => event_purpose ev = Refine) pre ->
  In (c, out) (pre ++ t) -> call_purpose c <> Refine -> In (c, out) t.
Proof.
  intros Hpre Hin Hc. apply in_app_or in Hin as [Hin|Hin]; [|assumption].
  rewrite Forall_forall in Hpre. apply Hpre in Hin. contradiction.
Qed.

(** X6.  When a call to MyMemory (detection or translation) is rejected,
    the request is answered with status 500 and the error
    ["Translation failed: "] followed by the message of the rejection. *)
Theorem provider_rejection_reported env o fields c e :
  In (c, Rejected e) (fst (handle env o (JObj fields))) ->
  call_purpose c <> Refine ->
  snd (handle env o (JObj fields))
  = Val {| status := 500;
           payload := JObj [(lit "error",
                             JStr (lit "Translation failed: " ++ e))] |}.
Proof.
  intros Hin Hc.
  destruct (falsy (object_get fields (lit "text"))
            || falsy (object_get fields (lit "target"))) eqn:Hvalid.
  { rewrite handle_rejected in Hin by assumption. destruct Hin. }
  destruct (handle_pipeline env o fields Hvalid)
    as [(e' & _ & He)|(pre & o' & rt & Hpre & He)];
    rewrite He in Hin |- *; cbn [fst snd] in *; [destruct Hin|].
  apply in_after_refine' in Hin; [|assumption..].
  pose proof (wp_run _ _ (pipeline_rejected
    (object_get fields (lit "target")) (object_get fields (lit "source"))
    rt) o' 0%nat) as Hr.
  cbv beta in Hr. now rewrite (Hr c e Hin).
Qed.

Lemma unreachable_mymemory_reported :
  In (translate_call (lit "hola") (lit "es") (lit "en"),
      Rejected (lit "network down"))
     (fst (handle Examples.env_with_key MoreExamples.unreachable
             (JObj Examples.hola)))
  /\ snd (handle Examples.env_with_key MoreExamples.unreachable
            (JObj Examples.hola))
     = Val (failure_reply (lit "network down")).
Proof.
  split; [left; reflexivity|].
  apply (provider_rejection_reported Examples.env_with_key
           MoreExamples.unreachable Examples.hola
           (translate_call (lit "hola") (lit "es") (lit "en"))
           (lit "network down")).
  - left. reflexivity.
  - discriminate.
Defined.

Lemma pipeline_translation target source rt :
  wp (translate_pipeline target source rt) (fun t r =>
    (forall c response data,
       In (c, Resolved response) t -> call_purpose c = Translate ->
       resp_json response = Val data -> nullish data = false ->
       r = Val (translation_reply
                  (js_or (translated_field data) (JStr no_translation))))
    /\ (forall rp, r = Val rp ->
        exists translation,
          rp = translation_reply translation /\ truthy translation = true)).
Proof.
  unfold translate_pipeline, resolve_source. wp_start.
  all: split.
  all: try (intros rp [= <-]).
  all: try (intros c resp data Hin Hc Hjson Hnn).
  all: repeat (destruct Hin as [[= <- <-]|Hin]; try discriminate);
    try contradiction.
  all: try congruence.
  all: try (pose proof (translated_text_field data Hnn); congruence).
  all: eexists; split; [reflexivity|].
  all: match goal with
       | H : translated_text _ = Val _ |- _ =>
           unfold translated_text in H;
           destruct (get _ _); [|discriminate]; cbn [exc_bind] in H;
           injection H as <-; now apply truthy_js_or
       end.
Qed.

(** X7.  When the translation call is answered with a JSON value other
    than [null], the reply is 200 with the [responseData.translatedText]
    of that value, whatever its type, if it is truthy, and with
    ["Error: no translation"] if it is absent or falsy (empty string,
    [null], [0], [false]). *)
Theorem translation_passed_or_marked env o fields c response data :
  In (c, Resolved response) (fst (handle env o (JObj fields))) ->
  call_purpose c = Translate ->
  resp_json response = Val data ->
  nullish data = false ->
  snd (handle env o (JObj fields))
  = Val {| status := 200;
           payload :=
             JObj [(lit "translation",
                    if truthy (translated_field data)
                    then translated_field data
                    else JStr (lit "Error: no translation"))] |}.
Proof.
  intros Hin Hc Hjson Hnn.
  destruct (falsy (object_get fields (lit "text"))
            || falsy (object_get fields (lit "target"))) eqn:Hvalid.
  { rewrite handle_rejected in Hin by assumption. destruct Hin. }
  destruct (handle_pipeline env o fields Hvalid)
    as [(e' & _ & He)|(pre & o' & rt & Hpre & He)];
    rewrite He in Hin |- *; cbn [fst snd] in *; [destruct Hin|].
  apply in_after_refine in Hin; [|assumption..].
  pose proof (wp_run _ _ (pipeline_translation
    (object_get fields (lit "target")) (object_get fields (lit "source"))
    rt) o' 0%nat) as [Hr _].
  now rewrite (Hr c response data Hin Hc Hjson Hnn).
Qed.

Lemma hello_is_passed_on :
  nullish (Examples.translated (lit "hello")) = false
  /\ snd (handle Examples.env_with_key Examples.says_hello
            (JObj Examples.hola))
     = Val (translation_reply (JStr (lit "hello"))).
Proof.
  split; [reflexivity|].
  apply (translation_passed_or_marked Examples.env_with_key
           Examples.says_hello Examples.hola
           (translate_call (lit "hola") (lit "es") (lit "en"))
           {| resp_ok := true; resp_status := 200; resp_text := Val [];
              resp_json := Val (Examples.translated (lit "hello")) |}
           (Examples.translated (lit "hello"))).
  - left. reflexivity.
  - reflexivity.
  - reflexivity.
  - reflexivity.
Defined.

(** X8.  A reply with status 200 always has the shape [{translation: v}]
    with a truthy [v], and the translation call was made: a success never
    carries an empty translation. *)
Theorem success_reply_has_translation env o body rp :
  snd (handle env o body) = Val rp -> status rp = 200 ->
  exists translation,
    payload rp = JObj [(lit "translation", translation)]
    /\ truthy translation = true
    /\ Exists (fun ev => event_purpose ev = Translate)
         (fst (handle env o body)).
Proof.
  intros Hr H200.
  destruct (handle_cases env o body)
    as [[Ht [Hm|[e Hm]]]|(fields & -> & Hvalid)].
  - rewrite Hm in Hr. injection Hr as <-. discriminate.
  - rewrite Hm in Hr. injection Hr as <-. discriminate.
  - destruct (handle_pipeline env o fields Hvalid)
      as [(e' & _ & He)|(pre & o' & rt & Hpre & He)];
      rewrite He in Hr |- *; cbn [fst snd] in *.
    { injection Hr as <-. discriminate. }
    pose proof (wp_run _ _ (pipeline_translation
      (object_get fields (lit "target")) (object_get fields (lit "source"))
      rt) o' 0%nat) as [_ Hv].
    pose proof (wp_run _ _ (pipeline_calls
      (object_get fields (lit "target")) (object_get fields (lit "source"))
      rt) o' 0%nat) as (_ & _ & Hst).
    destruct (snd (run o' 0 _)) as [rp'|e]; cbn [reply_of] in Hr.
    + injection Hr as <-. destruct (Hv rp' eq_refl) as (tr & -> & Htr).
      exists tr. repeat split; try assumption.
      apply Exists_app. right. now apply (Hst _ eq_refl).
    + injection Hr as <-. discriminate.
Qed.

Lemma hello_reply_is_not_empty :
  status (translation_reply (JStr (lit "hello"))) = 200
  /\ exists translation,
       payload (translation_reply (JStr (lit "hello")))
       = JObj [(lit "translation", translation)]
       /\ truthy translation = true
       /\ Exists (fun ev => event_purpose ev = Translate)
            (fst (handle Examples.env_with_key Examples.says_hello
                    (JObj Examples.hola))).
Proof.
  split; [reflexivity|].
  apply (success_reply_has_translation Examples.env_with_key
           Examples.says_hello (JObj Examples.hola)
           (translation_reply (JStr (lit "hello")))).
  - reflexivity.
  - reflexivity.
Defined.

Lemma answer_after_first o o' :
  (forall n c, call_purpose c <> Refine -> answer (o' n c) = answer (o n c)) ->
  forall n c, call_purpose c <> Refine ->
    answer (after_first o' n c) = answer (after_first o n c).
Proof. intros H n c Hc. apply (H (S n) c Hc). Qed.

Lemma alike_run {A} (m m' : Prog A) o o' :
  (forall n c, call_purpose c <> Refine -> answer (o' n c) = answer (o n c)) ->
  alike m m' ->
  forall n,
    snd (run o' n m') = snd (run o n m)
    /\ calls (fst (run o' n m')) = calls (fst (run o n m)).
Proof.
  intros Hans. revert m'.
  induction m as [a|e|c k IH|l k IH]; intros [a'|e'|c' k'|l' k'] Hm n;
    try contradiction; cbn [alike] in Hm.
  - now subst.
  - now subst.
  - destruct Hm as (<- & Hc & Hk). cbn [run].
    specialize (IH (o n c) (k' (o' n c)) (Hk _ _ (eq_sym (Hans n c Hc))) (S n)).
    destruct (run o' (S n) _) as [t' r'], (run o (S n) _) as [t r].
    cbn [fst snd calls map] in *. destruct IH as [-> IH].
    split; [reflexivity|]. unfold calls in IH. now rewrite IH.
  - cbn [run]. now apply IH.
Qed.

Ltac alike_step :=
  lazymatch goal with
  | |- _ /\ _ => split; [reflexivity|split; [discriminate|]]
  | |- forall out out' : FetchOutcome, _ =>
      let H := fresh "Hanswer" in
      intros [?e|?response] [?e|?response] H; cbn [answer] in H;
      cbn [alike bind lift fetch catch console_log console_error];
      [injection H as <-|rewrite <- H|rewrite H|rewrite H]
  | |- alike ?m _ => let x := stuck_on m in destruct x eqn:?
  end;
  cbn [alike bind lift fetch catch console_log console_error].

Lemma pipeline_alike target source rt :
  alike (translate_pipeline target source rt)
        (translate_pipeline target source rt).
Proof.
  unfold translate_pipeline, resolve_source.
  cbn [alike bind lift fetch catch console_log console_error].
  repeat alike_step.
  all: reflexivity.
Qed.

(** X9.  The handler never looks at the HTTP status of a MyMemory
    response: two runs in which MyMemory's answers have the same parsed
    body (or fail with the same message) make the same calls and send the
    same reply, so an error status with a JSON body is handled like a
    success. *)
Theorem mymemory_status_ignored env o o' fields :
  (forall n c, call_purpose c = Refine -> o' n c = o n c) ->
  (forall n c, call_purpose c <> Refine -> answer (o' n c) = answer (o n c)) ->
  snd (handle env o' (JObj fields)) = snd (handle env o (JObj fields))
  /\ calls (fst (handle env o' (JObj fields)))
     = calls (fst (handle env o (JObj fields))).
Proof.
  intros Href Hans.
  destruct (falsy (object_get fields (lit "text"))
            || falsy (object_get fields (lit "target"))) eqn:Hvalid.
  { now rewrite !handle_rejected by assumption. }
  rewrite !handle_valid by assumption.
  destruct (translating_line _ _) as [line|e]; [|now split].
  destruct (gemini_request env fields) as [c|] eqn:Hreq; cbv zeta.
  - rewrite (Href 0%nat c (gemini_request_purpose env fields c Hreq)).
    match goal with
    | |- context [run (after_first o) 0 (translate_pipeline ?t ?s ?r)] =>
        pose proof (alike_run _ _ (after_first o) (after_first o')
                      (answer_after_first o o' Hans)
                      (pipeline_alike t s r) 0%nat) as [Hr Hc]
    end.
    destruct (run (after_first o') 0 _) as [t' r'],
             (run (after_first o) 0 _) as [t r].
    cbn [fst snd calls map] in *. unfold calls in Hc. now rewrite Hr, Hc.
  - pose proof (alike_run _ _ o o' Hans
                  (pipeline_alike (object_get fields (lit "target"))
                     (object_get fields (lit "source"))
                     (object_get fields (lit "text"))) 0%nat) as [Hr Hc].
    destruct (run o' 0 _) as [t' r'], (run o 0 _) as [t r].
    cbn [fst snd] in *. now rewrite Hr, Hc.
Qed.

Lemma quota_error_handled_like_success :
  snd (handle Examples.env_with_key MoreExamples.quota_exceeded
         (JObj Examples.hola))
  = snd (handle Examples.env_with_key Examples.says_hello
           (JObj Examples.hola)).
Proof.
  apply (mymemory_status_ignored Examples.env_with_key Examples.says_hello
           MoreExamples.quota_exceeded Examples.hola).
  - intros n c H. unfold MoreExamples.quota_exceeded. now rewrite H.
  - intros n c H. unfold MoreExamples.quota_exceeded.
    destruct (call_purpose c); [contradiction|reflexivity|reflexivity].
Defined.

(** ** The refinement step *)

(** X10.  [refineOriginalText] only knows the provider ["gemini"]: with
    any other value of [AI_PROVIDER] it prints its two lines and returns
    the text without a call, and no request reaches the refinement
    provider. *)
Theorem other_provider_never_calls_gemini env text language :
  is_string (AI_PROVIDER env) (lit "gemini") = false ->
  (exists provider,
     AI_PROVIDER env = JStr provider
     /\ refineOriginalText env text language
        = Log {| log_level := Stdout;
                 log_args := [LStr (lit "Refining original text with "
                                    ++ provider ++ lit "...")] |}
            (Log {| log_level := Stdout;
                    log_args := [LStr (lit "AI refinement disabled or unsupported provider, returning original text")] |}
               (Ret text)))
  /\ forall o body,
       Forall (fun ev => event_purpose ev <> Refine) (fst (handle env o body)).
Proof.
  intros Hp. split.
  - destruct (AI_PROVIDER_string env) as (c & s & Hs). exists (c :: s).
    split; [exact Hs|].
    unfold refineOriginalText, refining_line. rewrite Hp, Hs. reflexivity.
  - intros o body.
    destruct (handle_cases env o body) as [[-> _]|(fields & -> & _)].
    + constructor.
    + apply (handle_unrefined env o fields).
      unfold calls_gemini, gemini_request. rewrite Hp.
      now rewrite andb_false_r.
Qed.

Lemma openai_provider_calls_nothing :
  is_string (AI_PROVIDER MoreExamples.env_openai) (lit "gemini") = false
  /\ exists provider,
       AI_PROVIDER MoreExamples.env_openai = JStr provider
       /\ refineOriginalText MoreExamples.env_openai (JStr (lit "hola"))
            (JStr (lit "Spanish"))
          = Log {| log_level := Stdout;
                   log_args := [LStr (lit "Refining original text with "
                                      ++ provider ++ lit "...")] |}
              (Log {| log_level := Stdout;
                      log_args := [LStr (lit "AI refinement disabled or unsupported provider, returning original text")] |}
                 (Ret (JStr (lit "hola")))).
Proof.
  split; [reflexivity|].
  apply (other_provider_never_calls_gemini MoreExamples.env_openai
           (JStr (lit "hola")) (JStr (lit "Spanish"))).
  reflexivity.
Defined.

(** X11.  [refineWithGemini] never throws and never retries: it makes
    no call or exactly one, and returns either the text it was given or a
    trimmed string. *)
Theorem adapter_one_call_never_throws env text language o n :
  exists t v,
    run o n (refineWithGemini env text language) = (t, Val v)
    /\ (t = []
        \/ exists prompt,
             gemini_prompt text language = Val prompt
             /\ t = [(gemini_call env prompt, o n (gemini_call env prompt))])
    /\ (v = text \/ exists s, v = JStr (trim s)).
Proof.
  destruct (truthy (GOOGLE_GEMINI_KEY env)) eqn:Hkey.
  - rewrite refineWithGemini_run by assumption.
    destruct (gemini_prompt text language) as [prompt|e]; cbv zeta.
    2:{ exists [], text. auto. }
    eexists _, _. split; [reflexivity|].
    split; [right; now exists prompt|].
    unfold refined_of.
    destruct (o n _) as [e|response]; [now left|].
    destruct (resp_ok response); [|now left].
    destruct (resp_json response) as [data|e]; [|now left].
    destruct (first_candidate_text data) as [candidate|e]; [|now left].
    destruct (js_or candidate text); cbn [call_trim]; try now left.
    right. now exists s.
  - unfold refineWithGemini, falsy. rewrite Hkey.
    cbn [negb run bind console_log]. exists [], text. auto.
Qed.

(** X12.  When Gemini answers with a non-empty candidate text, the
    calls that follow (detection and translation) carry that text,
    trimmed, instead of the original: refinement replaces the text that is
    translated. *)
Theorem refined_text_is_sent_on env o fields c response data s tr r :
  handle env o (JObj fields) = ((c, Resolved response) :: tr, r) ->
  call_purpose c = Refine ->
  resp_ok response = true ->
  resp_json response = Val data ->
  first_candidate_text data = Val (JStr s) ->
  s <> [] ->
  Forall (carries (JStr (trim s))) tr
  /\ Forall (fun ev => event_purpose ev <> Refine) tr.
Proof.
  intros Hrun Hc Hok Hjson Hcand Hs.
  destruct (falsy (object_get fields (lit "text"))
            || falsy (object_get fields (lit "target"))) eqn:Hvalid.
  { rewrite handle_rejected in Hrun by assumption. discriminate. }
  rewrite handle_valid in Hrun by assumption.
  destruct (translating_line _ _) as [line|e]; [|discriminate].
  destruct (gemini_request env fields) as [c0|]; cbv zeta in Hrun.
  - destruct (run (after_first o) 0 _) as [t' r'] eqn:Hrest in Hrun.
    injection Hrun as <- Hout <- <-.
    rewrite Hout in Hrest. cbn [refined_of] in Hrest.
    rewrite Hok, Hjson, Hcand in Hrest.
    assert (js_or (JStr s) (object_get fields (lit "text")) = JStr s) as E.
    { unfold js_or. cbn [truthy]. now destruct s. }
    rewrite E in Hrest. cbn [call_trim] in Hrest.
    pose proof (wp_run _ _ (pipeline_calls
      (object_get fields (lit "target")) (object_get fields (lit "source"))
      (JStr (trim s))) (after_first o) 0%nat) as (Hnr & Hcar & _).
    rewrite Hrest in Hnr, Hcar. now split.
  - pose proof (wp_run _ _ (pipeline_calls
      (object_get fields (lit "target")) (object_get fields (lit "source"))
      (object_get fields (lit "text"))) o 0%nat) as (Hnr & _).
    destruct (run o 0 _) as [t' r']. injection Hrun as -> <-.
    cbn [fst] in Hnr. inversion Hnr as [|? ? Hhd _].
    now elim Hhd.
Qed.

Lemma polished_text_is_translated :
  first_candidate_text (MoreExamples.candidate (lit " Hola. "))
  = Val (JStr (lit " Hola. "))
  /\ Forall (carries (JStr (lit "Hola.")))
       (tl (fst (handle Examples.env_with_key MoreExamples.gemini_polishes
                   (JObj Examples.hola_plain)))).
Proof.
  split; [reflexivity|].
  apply (refined_text_is_sent_on Examples.env_with_key
           MoreExamples.gemini_polishes Examples.hola_plain
           (gemini_call Examples.env_with_key Examples.hola_prompt)
           {| resp_ok := true; resp_status := 200; resp_text := Val [];
              resp_json := Val (MoreExamples.candidate (lit " Hola. ")) |}
           (MoreExamples.candidate (lit " Hola. ")) (lit " Hola. ")
           (tl (fst (handle Examples.env_with_key
                       MoreExamples.gemini_polishes
                       (JObj Examples.hola_plain))))
           (snd (handle Examples.env_with_key MoreExamples.gemini_polishes
                   (JObj Examples.hola_plain)))).
  - reflexivity.
  - reflexivity.
  - reflexivity.
  - reflexivity.
  - reflexivity.
  - discriminate.
Defined.

(** ** The query string *)

Lemma printable_defined v :
  printable v = true -> exists s, ToString v = Val s.
Proof.
  unfold printable. destruct (ToString v) as [s|e]; [eauto|discriminate].
Qed.

Lemma resolve_language_printable v :
  printable v = true ->
  exists code s, resolve_language v = Val code /\ ToString code = Val s.
Proof.
  intros Hv. destruct (printable_defined v Hv) as (key & Hkey).
  unfold resolve_language. rewrite Hkey. cbn [exc_bind].
  unfold js_or. destruct (truthy (object_get languages key)) eqn:Ht.
  - unfold object_get in *.
    destruct (own languages key) as [x|] eqn:Hown.
    + revert Hown. unfold languages. cbn [map fst snd own].
      repeat (destruct (jsstring_eqb _ key);
              [intros [= <-]; eexists _, _; split; reflexivity|]).
      discriminate.
    + unfold object_prototype_get in *.
      destruct (jsstring_eqb _ (lit "constructor"));
        [eexists _, _; split; reflexivity|].
      destruct (jsstring_eqb _ (lit "__proto__"));
        [eexists _, _; split; reflexivity|].
      destruct (existsb _ _); [|discriminate].
      eexists _, _; split; reflexivity.
  - exists v, key. now split.
Qed.

(** X13.  A text whose string [encodeURIComponent] rejects (a lone
    surrogate) makes a request that skips refinement, and whose [text],
    [target] and [source] can be converted to strings, fail before any
    provider is called: the reply is 500 with
    ["Translation failed: URI malformed"]. *)
Theorem malformed_text_fails_before_any_call env o fields s :
  let text := object_get fields (lit "text") in
  let target := object_get fields (lit "target") in
  let source := object_get fields (lit "source") in
  falsy text || falsy target = false ->
  calls_gemini env fields = false ->
  ToString text = Val s ->
  encodeURIComponent s = None ->
  printable target = true ->
  printable source = true ->
  handle env o (JObj fields)
  = ([], Val {| status := 500;
                payload := JObj [(lit "error",
                                  JStr (lit "Translation failed: URI malformed"))] |}).
Proof.
  cbv zeta. intros Hvalid Hno Htext Henc Htarget Hsource.
  rewrite handle_valid by assumption.
  pose proof (translating_line_printable (object_get fields (lit "text"))
                (object_get fields (lit "target"))) as Hline.
  unfold printable at 1 in Hline. rewrite Htext, Htarget in Hline.
  destruct (translating_line _ _) as [line|e]; [|discriminate].
  rewrite (calls_gemini_request _ _ Hno).
  destruct (resolve_language_printable _ Htarget) as (tgt & ts & Htgt & Hts).
  unfold translate_pipeline, resolve_source, targetLang, encode.
  rewrite Htgt, Htext. cbn [exc_bind]. rewrite Henc.
  unfold client_source.
  destruct (truthy (object_get fields (lit "source"))) eqn:Htruthy.
  - destruct (resolve_language_printable _ Hsource) as (code & ss & Hcode & Hss).
    rewrite Hcode. cbn [lift bind].
    rewrite (resolve_language_truthy _ _ Htruthy Hcode).
    unfold client_source_line.
    destruct (printable_defined _ Hsource) as (name & ->). rewrite Hss.
    reflexivity.
  - reflexivity.
Qed.

Lemma lone_surrogate_fails :
  encodeURIComponent [55296] = None
  /\ handle Examples.env_with_key Examples.says_hello
       (JObj MoreExamples.lone_surrogate)
     = ([], Val (failure_reply (lit "URI malformed"))).
Proof.
  split; [reflexivity|].
  apply (malformed_text_fails_before_any_call Examples.env_with_key
           Examples.says_hello MoreExamples.lone_surrogate [55296]).
  - reflexivity.
  - reflexivity.
  - reflexivity.
  - reflexivity.
  - reflexivity.
  - reflexivity.
Defined.

Lemma hex_digit_unreserved n : n < 16 -> uri_unreserved (hex_digit n) = true.
Proof.
  intros H. unfold hex_digit, uri_unreserved, is_alnum.
  apply orb_true_iff. left. apply orb_true_iff. left. apply orb_true_iff.
  destruct (N.ltb_spec n 10); [left|right].
  all: apply andb_true_iff; split; apply N.leb_le; lia.
Qed.

Lemma percent_safe b : b < 256 -> Forall query_safe (percent b).
Proof.
  intros H. unfold percent.
  apply Forall_cons; [now right|].
  apply Forall_cons.
  { left. apply hex_digit_unreserved. apply N.Div0.div_lt_upper_bound. lia. }
  apply Forall_cons; [|apply Forall_nil].
  left. apply hex_digit_unreserved. apply N.mod_lt. lia.
Qed.

Lemma utf8_bytes cp : cp < 1114112 -> Forall (fun b => b < 256) (utf8 cp).
Proof.
  intros H. unfold utf8.
  destruct (N.ltb_spec cp 128); [repeat constructor; lia|].
  destruct (N.ltb_spec cp 2048).
  { assert (cp / 64 < 32) by (apply N.Div0.div_lt_upper_bound; lia).
    assert (cp mod 64 < 64) by (apply N.mod_lt; lia).
    repeat constructor; lia. }
  destruct (N.ltb_spec cp 65536).
  { assert (cp / 4096 < 16) by (apply N.Div0.div_lt_upper_bound; lia).
    assert ((cp / 64) mod 64 < 64) by (apply N.mod_lt; lia).
    assert (cp mod 64 < 64) by (apply N.mod_lt; lia).
    repeat constructor; lia. }
  assert (cp / 262144 < 5) by (apply N.Div0.div_lt_upper_bound; lia).
  assert ((cp / 4096) mod 64 < 64) by (apply N.mod_lt; lia).
  assert ((cp / 64) mod 64 < 64) by (apply N.mod_lt; lia).
  assert (cp mod 64 < 64) by (apply N.mod_lt; lia).
  repeat constructor; lia.
Qed.

Lemma escape_safe cp : cp < 1114112 -> Forall query_safe (escape cp).
Proof.
  intros H. unfold escape. pose proof (utf8_bytes cp H) as Hb.
  induction Hb as [|b l Hb _ IH]; cbn [flat_map]; [constructor|].
  apply Forall_app. split; [now apply percent_safe|exact IH].
Qed.

Lemma surrogate_pair_code_point c d :
  is_high_surrogate c = true -> is_low_surrogate d = true ->
  65536 + (c - 55296) * 1024 + (d - 56320) < 1114112.
Proof.
  unfold is_high_surrogate, is_low_surrogate. intros Hc Hd.
  apply andb_true_iff in Hc as [H1 H2].
  apply andb_true_iff in Hd as [H3 H4].
  apply N.leb_le in H1. apply N.leb_le in H2.
  apply N.leb_le in H3. apply N.leb_le in H4. lia.
Qed.

Lemma encodeURIComponent_safe_bounded n :
  forall s q, (List.length s <= n)%nat -> well_formed s ->
    encodeURIComponent s = Some q -> Forall query_safe q.
Proof.
  induction n as [|n IH]; intros s q Hlen Hwf Henc.
  - destruct s; [|simpl in Hlen; lia]. injection Henc as <-. constructor.
  - destruct s as [|c s]; [injection Henc as <-; constructor|].
    inversion Hwf as [|? ? Hc Hwf']; subst.
    simpl in Hlen. cbn [encodeURIComponent] in Henc.
    destruct (uri_unreserved c) eqn:Hu.
    { destruct (encodeURIComponent s) as [q'|] eqn:E; [|discriminate].
      cbn [option_map] in Henc. injection Henc as <-.
      constructor; [now left|].
      apply (IH s q'); [lia|assumption|assumption]. }
    destruct (is_low_surrogate c) eqn:Hlow; [discriminate|].
    destruct (is_high_surrogate c) eqn:Hhigh.
    { destruct s as [|d s]; [discriminate|].
      destruct (is_low_surrogate d) eqn:Hd; [|discriminate].
      destruct (encodeURIComponent s) as [q'|] eqn:E; [|discriminate].
      cbn [option_map] in Henc. injection Henc as <-.
      inversion Hwf' as [|? ? _ Hwf'']; subst. simpl in Hlen.
      apply Forall_app. split.
      - apply escape_safe. now apply surrogate_pair_code_point.
      - apply (IH s q'); [lia|assumption|assumption]. }
    destruct (encodeURIComponent s) as [q'|] eqn:E; [|discriminate].
    cbn [option_map] in Henc. injection Henc as <-. apply Forall_app. split.
    + apply escape_safe. lia.
    + apply (IH s q'); [lia|assumption|assumption].
Qed.

Lemma encodeURIComponent_safe s q :
  well_formed s -> encodeURIComponent s = Some q -> Forall query_safe q.
Proof. apply (encodeURIComponent_safe_bounded (List.length s)). lia. Qed.

(** X16.  The text cannot add parameters to the MyMemory query: in a
    request that skips refinement, the [q] parameter of every call
    consists of unreserved characters and percent escapes only, so it
    contains no [&], [=], [#] or [|]. *)
Theorem text_cannot_break_query env o fields s :
  object_get fields (lit "text") = JStr s ->
  well_formed s ->
  calls_gemini env fields = false ->
  Forall (fun ev =>
            exists q langpair,
              call_url (fst ev) = mymemory_url q langpair
              /\ Forall query_safe q)
    (fst (handle env o (JObj fields))).
Proof.
  intros Htext Hwf Hno.
  pose proof (handle_unrefined env o fields Hno) as (_ & Hcar & _).
  cbv zeta in Hcar. rewrite Htext in Hcar.
  eapply Forall_impl; [|exact Hcar].
  intros ev (q & lp & Henc & Hurl). exists q, lp. split; [assumption|].
  unfold encode in Henc. cbn [ToString exc_bind] in Henc.
  destruct (encodeURIComponent s) as [q'|] eqn:E; [|discriminate].
  injection Henc as <-. now apply (encodeURIComponent_safe s).
Qed.

Lemma ampersand_is_escaped :
  well_formed (lit "a&b=c")
  /\ Forall (fun ev =>
               exists q langpair,
                 call_url (fst ev) = mymemory_url q langpair
                 /\ Forall query_safe q)
       (fst (handle Examples.env_with_key Examples.says_hello
               (JObj MoreExamples.ampersand))).
Proof.
  assert (well_formed (lit "a&b=c")) as Hwf.
  { repeat constructor. }
  split; [exact Hwf|].
  apply (text_cannot_break_query Examples.env_with_key Examples.says_hello
           MoreExamples.ampersand (lit "a&b=c")).
  - reflexivity.
  - exact Hwf.
  - reflexivity.
Defined.
